(** * resilientEventListener: a shallow embedding and its properties

    The listener of [resilientEventListener.ts] keeps a WebSocket
    subscription alive: it connects, subscribes, probes the connection
    at a fixed interval, terminates it when a probe is not answered in
    time, and reconnects with an exponential backoff until [stop] is
    called.

    The closure variables of [resilientEventListener] ([ws],
    [pingTimeout], [keepAliveInterval], [stopped], [reconnectDelay])
    and the part of the host the code talks to (sockets, timers, the
    clock) form the record [World].  Every callback of the source is a
    computation in a small state/exception/output monad [M] over that
    record; the host delivers [Event]s and [step] runs the callback the
    source registered for it. *)

From Stdlib Require Import ZArith String Ascii Lia.
From stdpp Require Import base option list gmap.

Set Warnings "-register-all".

Local Open Scope string_scope.
Local Open Scope Z_scope.
Local Open Scope list_scope.

(** ** JavaScript values *)

Module JS.

(** Functions supplied by the caller are opaque handles. *)
Inductive Fn := fn (tag : nat).

(** What [JSON.parse] builds (null, booleans, numbers, strings, arrays,
    objects), plus [undefined], function objects and host values
    (a [Buffer], an [Error], a [BigInt]).  The wire identifiers are integers and
    the code only compares numbers with [===], so numbers are
    integers here. *)
Inductive Value :=
| Undefined
| Null
| Bool (b : bool)
| Num (n : Z)
| Str (s : string)
| Arr (items : list Value)
| Obj (fields : list (string * Value))
| Fun (f : Fn)
| Host (label : string).

(** What a call, a property access or a conversion completes with. *)
Inductive Error := TypeError | SyntaxError | RangeError.

Inductive Completion (A : Type) :=
| Normal (a : A)
| Throw (e : Error).
Arguments Normal {A} a.
Arguments Throw {A} e.

(** [ToBoolean]. *)
Definition truthy (v : Value) : bool :=
  match v with
  | Undefined | Null => false
  | Bool b => b
  | Num n => negb (Z.eqb n 0)
  | Str s => negb (String.eqb s EmptyString)
  | Arr _ | Obj _ | Fun _ | Host _ => true
  end.

Definition fn_eqb (f g : Fn) : bool :=
  match f, g with fn a, fn b => Nat.eqb a b end.

(** [===].  Primitives compare by value.  Objects and arrays compare
    by reference: the only comparison of the listener that can see
    two of them is [params.subscription === subscriptionId], whose
    sides were built by two different calls of [JSON.parse], so they
    are never the same reference. *)
Definition strict_eq (a b : Value) : bool :=
  match a, b with
  | Undefined, Undefined => true
  | Null, Null => true
  | Bool x, Bool y => Bool.eqb x y
  | Num x, Num y => Z.eqb x y
  | Str x, Str y => String.eqb x y
  | Fun f, Fun g => fn_eqb f g
  | _, _ => false
  end.

(** Array index property names are the canonical decimal numerals. *)
Definition digit (a : ascii) : option nat :=
  match a with
  | "0"%char => Some 0%nat
  | "1"%char => Some 1%nat
  | "2"%char => Some 2%nat
  | "3"%char => Some 3%nat
  | "4"%char => Some 4%nat
  | "5"%char => Some 5%nat
  | "6"%char => Some 6%nat
  | "7"%char => Some 7%nat
  | "8"%char => Some 8%nat
  | "9"%char => Some 9%nat
  | _ => None
  end.

Fixpoint digits (acc : nat) (s : string) : option nat :=
  match s with
  | EmptyString => Some acc
  | String a r =>
      match digit a with
      | Some d => digits (10 * acc + d)%nat r
      | None => None
      end
  end.

Definition index_of_string (k : string) : option nat :=
  match k with
  | EmptyString => None
  | String a EmptyString => digit a
  | String a _ => if Ascii.eqb a "0"%char then None else digits 0 k
  end.

Fixpoint assoc (k : string) (fields : list (string * Value)) : option Value :=
  match fields with
  | [] => None
  | (k', v) :: r => if String.eqb k k' then Some v else assoc k r
  end.

(** Own properties of an array: its elements and [length].  No
    property of [Array.prototype] is named [log], [id], [result],
    [method], [params] or [subscription], the only names the listener
    reads. *)
Definition array_prop (items : list Value) (k : string) : Value :=
  match index_of_string k with
  | Some i => nth i items Undefined
  | None =>
      if String.eqb k "length" then Num (Z.of_nat (length items))
      else Undefined
  end.

Definition string_prop (s : string) (k : string) : Value :=
  match index_of_string k with
  | Some i =>
      match String.get i s with
      | Some c => Str (String c EmptyString)
      | None => Undefined
      end
  | None =>
      if String.eqb k "length" then Num (Z.of_nat (String.length s))
      else Undefined
  end.

(** [v.k]: a [TypeError] on [undefined] and [null]. *)
Definition get (v : Value) (k : string) : Completion Value :=
  match v with
  | Undefined | Null => Throw TypeError
  | Obj fields => Normal (default Undefined (assoc k fields))
  | Arr items => Normal (array_prop items k)
  | Str s => Normal (string_prop s k)
  | Bool _ | Num _ | Fun _ | Host _ => Normal Undefined
  end.

(** [v?.k]. *)
Definition opt_get (v : Value) (k : string) : Value :=
  match get v k with
  | Normal x => x
  | Throw _ => Undefined
  end.

(** [ToString], which a template literal applies to each value it
    interpolates: whether it completes.  The text is not needed, since
    messages are recorded as the source writes them.  On an object
    [JSON.parse] built, [toString] and then [valueOf] are looked up
    and called if callable: without an own [toString] the inherited
    one answers; with one (no value of [JSON.parse] is callable) only
    [valueOf] is left, which is not callable either or returns the
    object itself, and the conversion is a [TypeError].  An array
    joins the conversions of its elements, [null] and [undefined]
    counting as empty.  Primitives, functions and host values
    convert. *)
Fixpoint to_string (v : Value) : Completion unit :=
  match v with
  | Obj fields =>
      match assoc "toString" fields with
      | Some _ => Throw TypeError
      | None => Normal tt
      end
  | Arr items =>
      (fix join (l : list Value) : Completion unit :=
         match l with
         | [] => Normal tt
         | x :: r =>
             match to_string x with
             | Normal _ => join r
             | Throw e => Throw e
             end
         end) items
  | _ => Normal tt
  end.

End JS.

Import JS.

(** ** Configuration and data of the listener *)

Inductive LogLevel := LDebug | LInfo | LWarn | LError.

(** [LogDescription] of ethers: the two fields the listener reads. *)
Module LogDescription.
Record t := { name : string; args : Value }.
End LogDescription.

(** [ResilientEventListenerArgs]; [abi] only enters through the topic
    hash and [parseLog], which are ethers' and taken as given below. *)
Module Args.
Record t := {
  rpcUrl : string;
  contractAddress : string;
  eventName : string;
  log : option Fn;
  callback : option Fn;
  keepAliveCheckInterval : option Z;
  expectedPongBack : option Z
}.
End Args.

Definition DEFAULT_EXPECTED_PONG_BACK : Z := 15000.
Definition DEFAULT_KEEP_ALIVE_CHECK_INTERVAL : Z := 60 * 1000.

(** [configured || fallback] on an optional number: [undefined] and [0]
    are falsy. *)
Definition or_default (configured : option Z) (fallback : Z) : Z :=
  match configured with
  | Some n => if Z.eqb n 0 then fallback else n
  | None => fallback
  end.

(** ** The host: sockets, timers, the clock *)

Abbreviation ConnId := nat (only parsing).
Abbreviation TimerId := nat (only parsing).

Inductive ReadyState := CONNECTING | OPEN | CLOSING | CLOSED.

(** One socket, with the variable [subscriptionId] of the [connect]
    call that created it (its handlers close over that variable). *)
Record Socket := {
  readyState : ReadyState;
  subscriptionId : Value
}.

(** The three functions the listener hands to [setTimeout] and
    [setInterval]. *)
Inductive Callback := connect_cb | keepAlive_cb | pingTimeout_cb.

Inductive TimerKind := Timeout | Interval.

Record Timer := {
  kind : TimerKind;
  callback : Callback;
  delay : Z;
  due : Z
}.

(** [event.data] of a message: a string or a [Buffer], given by what
    [JSON.parse] makes of its text, or anything else (an [ArrayBuffer],
    an array of buffers). *)
Inductive MessageData :=
| StringData (parsed : Completion Value)
| BufferData (parsed : Completion Value)
| OtherData.

(** What the listener does to the outside, in order.  [ELog] records a
    call of the internal helper [log]; [ECall] a call of the function
    that helper finds; [EUncaught] an exception leaving a callback. *)
Inductive Effect :=
| ELog (level : LogLevel) (message : string) (rest : list Value)
| ECall (f : Fn) (level : LogLevel) (message : string) (rest : list Value)
| ECallback (f : Fn) (eventLog : option LogDescription.t)
| ENewWebSocket (c : ConnId) (url : string)
| ESend (c : ConnId) (payload : Value)
| EClose (c : ConnId)
| ETerminate (c : ConnId)
| ESetTimeout (t : TimerId) (cb : Callback) (ms : Z)
| ESetInterval (t : TimerId) (cb : Callback) (ms : Z)
| EClearTimeout (t : TimerId)
| EClearInterval (t : TimerId)
| EUncaught (e : Error).

Record World := {
  (* closure variables of resilientEventListener *)
  ws : option ConnId;
  pingTimeout : option TimerId;
  keepAliveInterval : option TimerId;
  stopped : bool;
  reconnectDelay : Z;
  (* the host *)
  now : Z;
  sockets : gmap nat Socket;
  timers : gmap nat Timer;
  next_socket : nat;
  next_timer : nat
}.

Definition set_ws (v : option ConnId) (w : World) : World :=
  {| ws := v; pingTimeout := pingTimeout w;
     keepAliveInterval := keepAliveInterval w; stopped := stopped w;
     reconnectDelay := reconnectDelay w; now := now w;
     sockets := sockets w; timers := timers w;
     next_socket := next_socket w; next_timer := next_timer w |}.

Definition set_pingTimeout (v : option TimerId) (w : World) : World :=
  {| ws := ws w; pingTimeout := v;
     keepAliveInterval := keepAliveInterval w; stopped := stopped w;
     reconnectDelay := reconnectDelay w; now := now w;
     sockets := sockets w; timers := timers w;
     next_socket := next_socket w; next_timer := next_timer w |}.

Definition set_keepAliveInterval (v : option TimerId) (w : World) : World :=
  {| ws := ws w; pingTimeout := pingTimeout w;
     keepAliveInterval := v; stopped := stopped w;
     reconnectDelay := reconnectDelay w; now := now w;
     sockets := sockets w; timers := timers w;
     next_socket := next_socket w; next_timer := next_timer w |}.

Definition set_stopped (v : bool) (w : World) : World :=
  {| ws := ws w; pingTimeout := pingTimeout w;
     keepAliveInterval := keepAliveInterval w; stopped := v;
     reconnectDelay := reconnectDelay w; now := now w;
     sockets := sockets w; timers := timers w;
     next_socket := next_socket w; next_timer := next_timer w |}.

Definition set_reconnectDelay (v : Z) (w : World) : World :=
  {| ws := ws w; pingTimeout := pingTimeout w;
     keepAliveInterval := keepAliveInterval w; stopped := stopped w;
     reconnectDelay := v; now := now w;
     sockets := sockets w; timers := timers w;
     next_socket := next_socket w; next_timer := next_timer w |}.

Definition set_now (v : Z) (w : World) : World :=
  {| ws := ws w; pingTimeout := pingTimeout w;
     keepAliveInterval := keepAliveInterval w; stopped := stopped w;
     reconnectDelay := reconnectDelay w; now := v;
     sockets := sockets w; timers := timers w;
     next_socket := next_socket w; next_timer := next_timer w |}.

Definition set_sockets (v : gmap nat Socket) (w : World) : World :=
  {| ws := ws w; pingTimeout := pingTimeout w;
     keepAliveInterval := keepAliveInterval w; stopped := stopped w;
     reconnectDelay := reconnectDelay w; now := now w;
     sockets := v; timers := timers w;
     next_socket := next_socket w; next_timer := next_timer w |}.

Definition set_timers (v : gmap nat Timer) (w : World) : World :=
  {| ws := ws w; pingTimeout := pingTimeout w;
     keepAliveInterval := keepAliveInterval w; stopped := stopped w;
     reconnectDelay := reconnectDelay w; now := now w;
     sockets := sockets w; timers := v;
     next_socket := next_socket w; next_timer := next_timer w |}.

Definition set_next_socket (v : nat) (w : World) : World :=
  {| ws := ws w; pingTimeout := pingTimeout w;
     keepAliveInterval := keepAliveInterval w; stopped := stopped w;
     reconnectDelay := reconnectDelay w; now := now w;
     sockets := sockets w; timers := timers w;
     next_socket := v; next_timer := next_timer w |}.

Definition set_next_timer (v : nat) (w : World) : World :=
  {| ws := ws w; pingTimeout := pingTimeout w;
     keepAliveInterval := keepAliveInterval w; stopped := stopped w;
     reconnectDelay := reconnectDelay w; now := now w;
     sockets := sockets w; timers := timers w;
     next_socket := next_socket w; next_timer := v |}.

(** ** The monad of callbacks: state, exceptions, output *)

Definition M (A : Type) : Type := World -> Completion A * World * list Effect.

Definition ret {A} (a : A) : M A := fun w => (Normal a, w, []).

Definition bind {A B} (m : M A) (k : A -> M B) : M B :=
  fun w =>
    match m w with
    | (Normal a, w1, out1) =>
        match k a w1 with
        | (r, w2, out2) => (r, w2, out1 ++ out2)
        end
    | (Throw e, w1, out1) => (Throw e, w1, out1)
    end.

Notation "'let*' x ':=' m 'in' k" := (bind m (fun x => k))
  (at level 10, x name, m at level 100, k at level 200).
Notation "m >> k" := (bind m (fun _ => k))
  (at level 100, k at level 200, right associativity).

Definition gets {A} (f : World -> A) : M A := fun w => (Normal (f w), w, []).
Definition modify (f : World -> World) : M unit := fun w => (Normal tt, f w, []).
Definition emit (e : Effect) : M unit := fun w => (Normal tt, w, [e]).
Definition throw {A} (e : Error) : M A := fun w => (Throw e, w, []).
Definition lift {A} (r : Completion A) : M A := fun w => (r, w, []).
Definition skip : M unit := ret tt.

(** ** Host operations *)

(** Node replaces a delay outside [1, 2^31 - 1] by 1. *)
Definition effective_delay (ms : Z) : Z :=
  if (Z.leb 1 ms && Z.leb ms 2147483647)%bool then ms else 1.

Definition arm (k : TimerKind) (cb : Callback) (ms : Z) (w : World) : World :=
  set_next_timer (S (next_timer w))
    (set_timers
       (<[next_timer w :=
            {| kind := k; callback := cb; delay := ms;
               due := now w + effective_delay ms |}]> (timers w)) w).

Definition setTimeout (cb : Callback) (ms : Z) : M TimerId :=
  fun w => (Normal (next_timer w), arm Timeout cb ms w,
            [ESetTimeout (next_timer w) cb ms]).

Definition setInterval (cb : Callback) (ms : Z) : M TimerId :=
  fun w => (Normal (next_timer w), arm Interval cb ms w,
            [ESetInterval (next_timer w) cb ms]).

Definition disarm (t : TimerId) (w : World) : World :=
  set_timers (delete t (timers w)) w.

Definition clearTimeout (t : TimerId) : M unit :=
  modify (disarm t) >> emit (EClearTimeout t).

Definition clearInterval (t : TimerId) : M unit :=
  modify (disarm t) >> emit (EClearInterval t).

Definition set_readyState (r : ReadyState) (s : Socket) : Socket :=
  {| readyState := r; subscriptionId := subscriptionId s |}.

Definition set_subscriptionId (v : Value) (s : Socket) : Socket :=
  {| readyState := readyState s; subscriptionId := v |}.

Definition update_socket (c : ConnId) (f : Socket -> Socket) (w : World) : World :=
  set_sockets (alter f c (sockets w)) w.

(** [new WebSocket(url)]: a fresh socket, connecting, whose handlers'
    [subscriptionId] is still [undefined]. *)
Definition new_WebSocket (url : string) : M ConnId :=
  fun w =>
    (Normal (next_socket w),
     set_next_socket (S (next_socket w))
       (set_sockets
          (<[next_socket w :=
               {| readyState := CONNECTING; subscriptionId := Undefined |}]>
             (sockets w)) w),
     [ENewWebSocket (next_socket w) url]).

(** [ws.readyState]; a socket the host does not know counts as closed. *)
Definition readyState_of (c : ConnId) (w : World) : ReadyState :=
  match sockets w !! c with
  | Some s => readyState s
  | None => CLOSED
  end.

Definition subscriptionId_of (c : ConnId) (w : World) : Value :=
  match sockets w !! c with
  | Some s => subscriptionId s
  | None => Undefined
  end.

(** [close()] and [terminate()] start the closing of a socket that is
    not closed yet; the host reports the end with a close event. *)
Definition start_closing (s : Socket) : Socket :=
  match readyState s with
  | CLOSED => s
  | _ => set_readyState CLOSING s
  end.

Definition ws_send (c : ConnId) (payload : Value) : M unit :=
  emit (ESend c payload).

Definition ws_close (c : ConnId) : M unit :=
  modify (update_socket c start_closing) >> emit (EClose c).

Definition ws_terminate (c : ConnId) : M unit :=
  modify (update_socket c start_closing) >> emit (ETerminate c).

(** ** The listener *)

(** What one listener is created with: the configuration [args]; the
    topic hash ethers computes for [args.eventName];
    [contract.interface.parseLog], which returns a description, returns
    [null], or throws; and what a call of [args.callback] completes
    with, given its argument: it returns (the listener ignores the
    value) or throws.  What the callback does to the caller's own data
    is the caller's, and it is taken not to call back into the
    listener; for the callback of [index.ts], which does not, see
    [index_callback] below. *)
Class Setup := {
  args : Args.t;
  topicHash : string;
  parseLog : Value -> Completion (option LogDescription.t);
  callback_completion : option LogDescription.t -> Completion unit
}.

Section Listener.

Context {setup : Setup}.

(** [args.log(...)] where the callee is whatever value was found. *)
Definition call_log (callee : Value) (level : LogLevel) (message : string)
    (rest : list Value) : M unit :=
  match callee with
  | Fun f => emit (ECall f level message rest)
  | _ => throw TypeError
  end.

(** The helper [log].  Its rest parameter is named [args] as in the
    source, so inside it [args] is the array of extra arguments and
    [args.log] is a property of that array. *)
Definition log (level : LogLevel) (message : string) (args : list Value) : M unit :=
  emit (ELog level message args) >>
  if truthy (array_prop args "log")
  then call_log (array_prop args "log") level message args
  else skip.

Definition request : Value :=
  Obj [("id", Num 1);
       ("method", Str "eth_subscribe");
       ("params",
        Arr [Str "logs";
             Obj [("topics", Arr [Str topicHash]);
                  ("address", Str (Args.contractAddress args))]])].

Definition ping : Value :=
  Obj [("id", Num 2);
       ("method", Str "net_listening");
       ("params", Arr [])].

(** [connect]: the part that runs when called; the handlers it
    registers on the new socket follow.  Opening the socket and the
    lookup of the topic hash are taken to return (with an invalid URL
    or an event the ABI does not have, [connect] throws before it
    registers any handler). *)
Definition connect : M unit :=
  let* s := gets stopped in
  if s then log LInfo "Listener stopped, not reconnecting." []
  else
    log LInfo "Connecting to WebSocket at ${args.rpcUrl}" [] >>
    let* c := new_WebSocket (Args.rpcUrl args) in
    modify (set_ws (Some c)) >>
    log LDebug "Subscribing to event listener with topic hash: ${topicHash}" [].

(** The callback of the deadline timer armed with each probe. *)
Definition onPingTimeout : M unit :=
  let* cur := gets ws in
  match cur with
  | Some c =>
      log LWarn "Ping timeout, terminating WebSocket connection." [] >>
      ws_terminate c
  | None => skip
  end.

(** The callback of the keep-alive interval. *)
Definition keepAlive : M unit :=
  let* cur := gets ws in
  match cur with
  | Some c =>
      let* state := gets (readyState_of c) in
      match state with
      | OPEN =>
          log LDebug "Performing health check for subscription to '${args.eventName}'." [] >>
          ws_send c ping >>
          let expectedPongBack :=
            or_default (Args.expectedPongBack args) DEFAULT_EXPECTED_PONG_BACK in
          let* t := setTimeout pingTimeout_cb expectedPongBack in
          modify (set_pingTimeout (Some t))
      | _ => skip
      end
  | None => skip
  end.

(** [ws.onopen]; [ws!.send] on a null [ws] is a [TypeError]. *)
Definition onopen : M unit :=
  log LInfo "WebSocket connection opened." [] >>
  modify (set_reconnectDelay 1000) >>
  let* cur := gets ws in
  match cur with
  | Some c => ws_send c request
  | None => throw TypeError
  end >>
  let keepAliveCheckInterval :=
    or_default (Args.keepAliveCheckInterval args) DEFAULT_KEEP_ALIVE_CHECK_INTERVAL in
  let* t := setInterval keepAlive_cb keepAliveCheckInterval in
  modify (set_keepAliveInterval (Some t)).

(** [eventLog?.args]. *)
Definition eventLog_args (eventLog : option LogDescription.t) : Value :=
  match eventLog with
  | Some d => LogDescription.args d
  | None => Undefined
  end.

(** [if (args.callback) args.callback(eventLog)]: what the callback
    throws is thrown by the call. *)
Definition call_callback (eventLog : option LogDescription.t) : M unit :=
  match Args.callback args with
  | Some f => emit (ECallback f eventLog) >> lift (callback_completion eventLog)
  | None => skip
  end.

(** The second half of [ws.onmessage], after the [try] block, on the
    socket [c] whose [connect] call declared [subscriptionId]. *)
Definition dispatch (c : ConnId) (parsedData : Value) : M unit :=
  if strict_eq (opt_get parsedData "id") (opt_get request "id") then
    let* result := lift (get parsedData "result") in
    modify (update_socket c (set_subscriptionId result)) >>
    lift (to_string result) >>
    log LInfo "Subscription to event '${args.eventName}' established with ID '${parsedData.result}'." []
  else if (strict_eq (opt_get parsedData "id") (opt_get ping "id")
           && strict_eq (opt_get parsedData "result") (Bool true))%bool then
    log LDebug "Health check successful." [] >>
    let* pending := gets pingTimeout in
    match pending with
    | Some t => clearTimeout t >> modify (set_pingTimeout None)
    | None => skip
    end
  else if strict_eq (opt_get parsedData "method") (Str "eth_subscription") then
    let* params := lift (get parsedData "params") in
    let* subscription := lift (get params "subscription") in
    let* known := gets (subscriptionId_of c) in
    if strict_eq subscription known then
      let* logData := lift (get params "result") in
      let* eventLog := lift (parseLog logData) in
      log LInfo "Received event ${eventLog?.name}:" [eventLog_args eventLog] >>
      call_callback eventLog
    else skip
  else skip.

(** [ws.onmessage]: the [try] block, then [dispatch]. *)
Definition onmessage (c : ConnId) (data : MessageData) : M unit :=
  match data with
  | StringData (Normal parsedData) | BufferData (Normal parsedData) =>
      dispatch c parsedData
  | StringData (Throw _) | BufferData (Throw _) =>
      log LError "Failed to parse JSON from WebSocket message." [Host "error"]
  | OtherData =>
      log LWarn "Received unexpected data type from WebSocket." [Host "event.data"]
  end.

Definition onerror : M unit :=
  log LError "WebSocket error:" [Host "err.message"].

Definition onclose : M unit :=
  log LInfo "WebSocket connection closed." [] >>
  let* k := gets keepAliveInterval in
  match k with Some t => clearInterval t | None => skip end >>
  let* p := gets pingTimeout in
  match p with Some t => clearTimeout t | None => skip end >>
  modify (set_ws None) >>
  let* s := gets stopped in
  if negb s then
    let* d := gets reconnectDelay in
    setTimeout connect_cb d >>
    modify (set_reconnectDelay (Z.min (d * 2) 30000))
  else skip.

Definition stop : M unit :=
  log LInfo "Stopping resilient event listener." [] >>
  modify (set_stopped true) >>
  let* cur := gets ws in
  match cur with
  | Some c => ws_close c >> modify (set_ws None)
  | None => skip
  end >>
  let* k := gets keepAliveInterval in
  match k with Some t => clearInterval t | None => skip end >>
  let* p := gets pingTimeout in
  match p with Some t => clearTimeout t | None => skip end.

(** The handler of [unexpected-response]. *)
Definition onUnexpectedResponse : M unit :=
  log LError "Unexpected server response: ${res.statusCode} ${res.statusMessage}" [] >>
  stop.

(** ** The host delivering events *)

Inductive Event :=
| Elapse (dt : Z)
| TimerFires (t : TimerId)
| Opens (c : ConnId)
| Message (c : ConnId) (data : MessageData)
| Errors (c : ConnId)
| Closes (c : ConnId)
| UnexpectedResponse (c : ConnId)
| StopCalled.

Definition run_callback (cb : Callback) : M unit :=
  match cb with
  | connect_cb => connect
  | keepAlive_cb => keepAlive
  | pingTimeout_cb => onPingTimeout
  end.

(** Running one callback to its end.  What it changed before throwing
    stays changed; the exception reaches the host as [EUncaught].
    Whether the host goes on after that is the host's affair: a run
    below describes one that does, and every prefix of a run is a
    run. *)
Definition deliver (m : M unit) (w : World) : World * list Effect :=
  match m w with
  | (Normal _, w', out) => (w', out)
  | (Throw e, w', out) => (w', out ++ [EUncaught e])
  end.

(** A timeout leaves the table when it fires; an interval is armed
    again. *)
Definition fire (t : TimerId) (tm : Timer) (w : World) : World :=
  match kind tm with
  | Timeout => disarm t w
  | Interval =>
      set_timers
        (<[t := {| kind := Interval; callback := callback tm;
                   delay := delay tm;
                   due := now w + effective_delay (delay tm) |}]> (timers w)) w
  end.

Definition on_socket (c : ConnId) (w : World) (k : World * list Effect)
    : option (World * list Effect) :=
  match sockets w !! c with
  | Some _ => Some k
  | None => None
  end.

(** One event.  [None]: the host cannot deliver it (time running
    backwards, a timer that is not pending or not due, a socket that
    does not exist). *)
Definition step (w : World) (ev : Event) : option (World * list Effect) :=
  match ev with
  | Elapse dt =>
      if Z.leb 0 dt then Some (set_now (now w + dt) w, []) else None
  | TimerFires t =>
      match timers w !! t with
      | Some tm =>
          if Z.leb (due tm) (now w)
          then Some (deliver (run_callback (callback tm)) (fire t tm w))
          else None
      | None => None
      end
  | Opens c =>
      on_socket c w (deliver onopen (update_socket c (set_readyState OPEN) w))
  | Message c data =>
      on_socket c w (deliver (onmessage c data) w)
  | Errors c =>
      on_socket c w (deliver onerror w)
  | Closes c =>
      on_socket c w (deliver onclose (update_socket c (set_readyState CLOSED) w))
  | UnexpectedResponse c =>
      on_socket c w (deliver onUnexpectedResponse w)
  | StopCalled => Some (deliver stop w)
  end.

Fixpoint run (w : World) (evs : list Event) : option (World * list Effect) :=
  match evs with
  | [] => Some (w, [])
  | ev :: rest =>
      match step w ev with
      | Some (w1, out1) =>
          match run w1 rest with
          | Some (w2, out2) => Some (w2, out1 ++ out2)
          | None => None
          end
      | None => None
      end
  end.

(** The variables as [resilientEventListener] declares them, at time 0
    of an idle host. *)
Definition fresh_world : World :=
  {| ws := None; pingTimeout := None; keepAliveInterval := None;
     stopped := false; reconnectDelay := 1000;
     now := 0; sockets := ∅; timers := ∅;
     next_socket := 0; next_timer := 0 |}.

(** [resilientEventListener(args)]: the declarations, then [connect()]. *)
Definition resilientEventListener : World * list Effect :=
  deliver connect fresh_world.

(** The states a listener can be in: the one it is created in, and
    those the host's events lead to. *)
Inductive reachable : World -> Prop :=
| reachable_created : reachable (fst resilientEventListener)
| reachable_step w ev w' out :
    reachable w -> step w ev = Some (w', out) -> reachable w'.

End Listener.

(** ** Reading the output *)

(** The delays of the reconnects scheduled, in order. *)
Definition reconnect_delay_of (e : Effect) : option Z :=
  match e with
  | ESetTimeout _ connect_cb ms => Some ms
  | _ => None
  end.

Definition reconnects (out : list Effect) : list Z :=
  omap reconnect_delay_of out.

Definition is_connection_attempt (e : Effect) : bool :=
  match e with ENewWebSocket _ _ => true | _ => false end.

(** The sockets opened with [new WebSocket]. *)
Definition connection_attempts (out : list Effect) : list Effect :=
  List.filter is_connection_attempt out.

Definition is_sink_call (e : Effect) : bool :=
  match e with ECall _ _ _ _ => true | _ => false end.

(** The calls that reach a log function. *)
Definition sink_calls (out : list Effect) : list Effect :=
  List.filter is_sink_call out.

Definition callback_arg_of (e : Effect) : option (option LogDescription.t) :=
  match e with
  | ECallback _ eventLog => Some eventLog
  | _ => None
  end.

(** The arguments of the calls of [args.callback]. *)
Definition callback_calls (out : list Effect) : list (option LogDescription.t) :=
  omap callback_arg_of out.

Definition is_uncaught (e : Effect) : bool :=
  match e with EUncaught _ => true | _ => false end.

Definition uncaught (out : list Effect) : list Effect :=
  List.filter is_uncaught out.

Definition log_level_of (e : Effect) : option LogLevel :=
  match e with
  | ELog level _ _ => Some level
  | _ => None
  end.

(** The levels the helper [log] was called with. *)
Definition log_levels (out : list Effect) : list LogLevel :=
  omap log_level_of out.

(** ** The caller in index.ts *)

Section Index.

(** [JSON.stringify(event.args)] as the template literal prints it;
    it throws on what it cannot serialise. *)
Variable stringify : Value -> Completion string.

(** The array [events] of the module and the lines written with
    [console.log]. *)
Record Index := {
  events : list string;
  console : list string
}.

(** The callback the module passes to [resilientEventListener]. *)
Definition index_callback (event : option LogDescription.t) (p : Index)
    : Completion unit * Index :=
  match event with
  | Some ev =>
      match stringify (LogDescription.args ev) with
      | Normal text =>
          let evStr :=
            ("Event " ++ LogDescription.name ev ++ ": " ++ text)%string in
          (Normal tt,
           {| events := events p ++ [evStr]; console := console p ++ [evStr] |})
      | Throw e => (Throw e, p)
      end
  | None => (Normal tt, p)
  end.

(** The handler of [GET /events]: the array as it is. *)
Definition get_events (p : Index) : list string := events p.

(** The callback called for each event the listener dispatches, in
    order; a call that throws leaves the module as it was. *)
Definition index_callbacks (calls : list (option LogDescription.t)) (p : Index)
    : Index :=
  fold_left (fun p event => snd (index_callback event p)) calls p.

(** The line an event leaves, if it leaves one. *)
Definition event_line (event : option LogDescription.t) : option string :=
  match event with
  | Some ev =>
      match stringify (LogDescription.args ev) with
      | Normal text =>
          Some ("Event " ++ LogDescription.name ev ++ ": " ++ text)%string
      | Throw _ => None
      end
  | None => None
  end.

(** Whether a call returns or throws does not depend on the lines
    collected so far. *)
Definition index_callback_completion (event : option LogDescription.t)
    : Completion unit :=
  fst (index_callback event {| events := []; console := [] |}).

End Index.

(** ** Concrete configurations *)

(** The topic hash of [Transfer(address,address,uint256)]. *)
Definition demo_topic : string :=
  "0xddf252ad1be2c89b69c2b068fc378daa952ba7f163c4a11628f55a4df523b3ef".

Definition is_hex_digit (a : ascii) : bool :=
  match a with
  | "0" | "1" | "2" | "3" | "4" | "5" | "6" | "7" | "8" | "9"
  | "a" | "b" | "c" | "d" | "e" | "f"
  | "A" | "B" | "C" | "D" | "E" | "F" => true
  | _ => false
  end%char.

Fixpoint all_hex (s : string) : bool :=
  match s with
  | EmptyString => true
  | String a r => (is_hex_digit a && all_hex r)%bool
  end.

(** ethers' [isHexString]: [0x] and hexadecimal digits. *)
Definition isHexString (s : string) : bool :=
  match s with
  | String "0"%char (String "x"%char r) => all_hex r
  | _ => false
  end.

Definition lower_hex (a : ascii) : ascii :=
  match a with
  | "A" => "a" | "B" => "b" | "C" => "c" | "D" => "d" | "E" => "e" | "F" => "f"
  | _ => a
  end%char.

Fixpoint toLowerCase (s : string) : string :=
  match s with
  | EmptyString => EmptyString
  | String a r => String (lower_hex a) (toLowerCase r)
  end.

(** A 32-byte word in hexadecimal, and one that holds an address. *)
Definition is_word (s : string) : bool :=
  (isHexString s && Nat.eqb (String.length s) 66)%bool.

Definition is_address_word (s : string) : bool :=
  (is_word s && String.prefix "0x000000000000000000000000" s)%bool.

Definition address_of (word : string) : string :=
  ("0x" ++ String.substring 26 40 word)%string.

(** The event of a Transfer log with its two indexed addresses and its
    amount complete: the arguments are the addresses and the amount, a
    [BigInt].  With bytes missing the decoder throws, and any other
    Transfer log is taken to do the same. *)
Definition decode_transfer (topics data : Value)
    : Completion (option LogDescription.t) :=
  match topics, data with
  | Arr (_ :: Str from :: Str to :: _), Str amount =>
      if (is_address_word from && is_address_word to && is_word amount)%bool
      then Normal (Some {| LogDescription.name := "Transfer";
                           LogDescription.args :=
                             Arr [Str (address_of from); Str (address_of to);
                                  Host "BigInt"] |})
      else Throw RangeError
  | Arr _, _ => Throw RangeError
  | _, _ => Throw TypeError
  end.

(** A decoder in the manner of ethers' [parseLog] for an ABI with the
    ERC-20 Transfer event: [log.topics[0]] selects the event.  A log
    without [topics], or whose [topics] has no first element or one
    that is no string, is a [TypeError]; a first topic in hexadecimal
    other than the topic hash gives [null]; a first topic that is no
    hexadecimal string is looked up as a name: the name of the event
    then fails the topic check, another name gives [null] (signatures
    are not parsed here).  Addresses are given as the topics carry
    them, which is how ethers prints those without letters. *)
Definition demo_parseLog (logData : Value) : Completion (option LogDescription.t) :=
  match get logData "topics" with
  | Normal topics =>
      match get topics "0" with
      | Normal (Str key) =>
          if isHexString key then
            if String.eqb (toLowerCase key) demo_topic
            then decode_transfer topics (opt_get logData "data")
            else Normal None
          else if String.eqb key "Transfer" then Throw TypeError
          else Normal None
      | Normal _ => Throw TypeError
      | Throw e => Throw e
      end
  | Throw e => Throw e
  end.

(** A serialiser in the manner of [JSON.stringify] on the arguments of
    an event: strings in quotes, arrays in brackets, a [TypeError] on
    a [BigInt]. *)
Definition quoted (s : string) : string :=
  String "034"%char (s ++ String "034"%char EmptyString)%string.

Fixpoint demo_stringify (v : Value) : Completion string :=
  match v with
  | Str s => Normal (quoted s)
  | Bool true => Normal "true"
  | Bool false => Normal "false"
  | Host _ => Throw TypeError
  | Arr items =>
      match
        (fix elements (first : bool) (l : list Value) : Completion string :=
           match l with
           | [] => Normal "]"
           | x :: r =>
               match demo_stringify x, elements false r with
               | Normal text, Normal rest =>
                   Normal ((if first then EmptyString else ",")
                           ++ text ++ rest)%string
               | Throw e, _ | _, Throw e => Throw e
               end
           end) true items
      with
      | Normal text => Normal ("[" ++ text)%string
      | Throw e => Throw e
      end
  | _ => Normal "null"
  end.

(** The caller of [index.ts]: a log function, its callback, default
    timing. *)
Definition demo_args : Args.t :=
  {| Args.rpcUrl := "wss://hoodi.infura.io/ws/v3/key";
     Args.contractAddress := "0xdAC17F958D2ee523a2206206994597C13D831ec7";
     Args.eventName := "Transfer";
     Args.log := Some (fn 0);
     Args.callback := Some (fn 1);
     Args.keepAliveCheckInterval := None;
     Args.expectedPongBack := None |}.

(** A probe every second, answered within a second and a half. *)
Definition hasty_args : Args.t :=
  {| Args.rpcUrl := "wss://hoodi.infura.io/ws/v3/key";
     Args.contractAddress := "0xdAC17F958D2ee523a2206206994597C13D831ec7";
     Args.eventName := "Transfer";
     Args.log := Some (fn 0);
     Args.callback := Some (fn 1);
     Args.keepAliveCheckInterval := Some 1000;
     Args.expectedPongBack := Some 1500 |}.

Definition demo : Setup :=
  {| args := demo_args; topicHash := demo_topic; parseLog := demo_parseLog;
     callback_completion := index_callback_completion demo_stringify |}.

Definition hasty : Setup :=
  {| args := hasty_args; topicHash := demo_topic; parseLog := demo_parseLog;
     callback_completion := index_callback_completion demo_stringify |}.

(** The listener just created: its first socket is connecting. *)
Definition demo_world : World := fst (resilientEventListener (setup := demo)).
Definition hasty_world : World := fst (resilientEventListener (setup := hasty)).

(** Frames as the server sends them. *)
Definition pong : MessageData :=
  StringData (Normal (Obj [("jsonrpc", Str "2.0"); ("id", Num 2); ("result", Bool true)])).

Definition subscribed (result : Value) : MessageData :=
  StringData (Normal (Obj [("jsonrpc", Str "2.0"); ("id", Num 1); ("result", result)])).

(** One USDT minted to the address 1: the log and what ethers makes
    of it. *)
Definition transfer_log : Value :=
  Obj [("address", Str "0xdac17f958d2ee523a2206206994597c13d831ec7");
       ("topics",
        Arr [Str demo_topic;
             Str "0x0000000000000000000000000000000000000000000000000000000000000000";
             Str "0x0000000000000000000000000000000000000000000000000000000000000001"]);
       ("data",
        Str "0x00000000000000000000000000000000000000000000000000000000000f4240")].

Definition decoded_transfer : LogDescription.t :=
  {| LogDescription.name := "Transfer";
     LogDescription.args :=
       Arr [Str "0x0000000000000000000000000000000000000000";
            Str "0x0000000000000000000000000000000000000001";
            Host "BigInt"] |}.


Definition notification (subscription logData : Value) : MessageData :=
  StringData (Normal (Obj [("jsonrpc", Str "2.0");
                           ("method", Str "eth_subscription");
                           ("params", Obj [("subscription", subscription);
                                           ("result", logData)])])).

(** ** Vocabulary of the properties *)

(** The two ways [stop()] gets called: by the caller, and by the
    [unexpected-response] handler. *)
Definition is_stop_request (ev : Event) : bool :=
  match ev with
  | StopCalled | UnexpectedResponse _ => true
  | _ => false
  end.

(** The backoff as the specification words it: a close schedules a
    reconnect after the current delay and doubles the delay up to 30
    seconds; a successful open resets the delay to 1 second. *)
Fixpoint backoff (d : Z) (evs : list Event) : list Z :=
  match evs with
  | [] => []
  | Opens _ :: rest => backoff 1000 rest
  | Closes _ :: rest => d :: backoff (Z.min (d * 2) 30000) rest
  | _ :: rest => backoff d rest
  end.

(** 1s, 2s, 4s, ..., capped at 30s. *)
Definition capped_doubling (k : nat) : Z :=
  Z.min (1000 * 2 ^ Z.of_nat k) 30000.

Definition is_close (ev : Event) : bool :=
  match ev with Closes _ => true | _ => false end.

(** The value [JSON.parse] gave, if [event.data] was text that parsed. *)
Definition parsed (data : MessageData) : option Value :=
  match data with
  | StringData (Normal v) | BufferData (Normal v) => Some v
  | _ => None
  end.

(** The three classifications of [ws.onmessage], as its conditions
    read. *)
Definition is_handshake_response (v : Value) : bool :=
  strict_eq (opt_get v "id") (Num 1).

Definition is_probe_response (v : Value) : bool :=
  (strict_eq (opt_get v "id") (Num 2)
   && strict_eq (opt_get v "result") (Bool true))%bool.

Definition is_notification (v : Value) : bool :=
  strict_eq (opt_get v "method") (Str "eth_subscription").

(** What [if (args.callback) args.callback(eventLog)] completes with. *)
Definition callback_outcome {setup : Setup} (eventLog : option LogDescription.t)
    : Completion unit :=
  match Args.callback args with
  | Some _ => callback_completion eventLog
  | None => Normal tt
  end.

(** The exception a handler's completion hands to the host, if it is
    one. *)
Definition escaping (r : Completion unit) : list Effect :=
  match r with
  | Throw e => [EUncaught e]
  | Normal _ => []
  end.

(** A message with the probe's identifier and a truthy result. *)
Definition answers_probe (v : Value) : bool :=
  (strict_eq (opt_get v "id") (Num 2) && truthy (opt_get v "result"))%bool.

Definition no_stop_request (evs : list Event) : bool :=
  forallb (fun ev => negb (is_stop_request ev)) evs.

Definition is_open (ev : Event) : bool :=
  match ev with Opens _ => true | _ => false end.

Definition closes (evs : list Event) : nat :=
  length (List.filter is_close evs).

(** Timer handles are never reused, and each of the two variables that
    hold a handle holds one of its own kind: [pingTimeout] a deadline,
    [keepAliveInterval] the keep-alive interval, pending or not. *)
Definition handles_typed (w : World) : Prop :=
  (forall t tm, timers w !! t = Some tm -> (t < next_timer w)%nat)
  /\ (forall t, pingTimeout w = Some t ->
        (t < next_timer w)%nat
        /\ forall tm, timers w !! t = Some tm -> callback tm = pingTimeout_cb)
  /\ (forall t, keepAliveInterval w = Some t ->
        (t < next_timer w)%nat
        /\ forall tm, timers w !! t = Some tm -> callback tm = keepAlive_cb).

(** A callback that never reaches a log function. *)
Definition silent (m : M unit) : Prop :=
  forall w, sink_calls (snd (m w)) = [].

(** A reconnect is scheduled under handle [t]. *)
Definition reconnect_pending (t : TimerId) (w : World) : Prop :=
  exists tm, timers w !! t = Some tm /\ callback tm = connect_cb.

(** What may happen between a probe and its deadline without the probe
    being answered: time passes, the keep-alive interval [k] ticks
    again, messages other than an answer to the probe arrive, the
    socket reports errors. *)
Definition quiet (k : TimerId) (ev : Event) : bool :=
  match ev with
  | Elapse _ => true
  | TimerFires t => Nat.eqb t k
  | Message _ data =>
      match parsed data with
      | Some v => negb (answers_probe v)
      | None => true
      end
  | Errors _ => true
  | _ => false
  end.

(** The listener is waiting on socket [c] for the deadline [t], armed
    as [deadline], with [k] its keep-alive interval and [d] its
    reconnect delay. *)
Definition probing (c : ConnId) (k t : TimerId) (deadline : Timer) (d : Z)
    (w : World) : Prop :=
  ws w = Some c
  /\ stopped w = false
  /\ reconnectDelay w = d
  /\ timers w !! t = Some deadline
  /\ (t < next_timer w)%nat
  /\ (k < next_timer w)%nat
  /\ (forall tm, timers w !! k = Some tm -> callback tm = keepAlive_cb).

(** A log function receives a call at [level]. *)
Definition reaches_sink_at (level : LogLevel) (out : list Effect) : Prop :=
  exists f message rest, In (ECall f level message rest) out.

(** What [ws.onmessage] passes to [log] for a frame it cannot parse. *)
Definition failure_log (data : MessageData) : Effect :=
  match data with
  | OtherData =>
      ELog LWarn "Received unexpected data type from WebSocket." [Host "event.data"]
  | _ =>
      ELog LError "Failed to parse JSON from WebSocket message." [Host "error"]
  end.

(** A notification that carries no [params]. *)
Definition bare_notification : Value :=
  Obj [("jsonrpc", Str "2.0"); ("method", Str "eth_subscription")].

(** The first socket of the demo listener, open. *)
Definition demo_open : World :=
  match run (setup := demo) demo_world [Opens 0%nat] with
  | Some (w, _) => w
  | None => demo_world
  end.

(** The probe timeout in force and the deadline timer a probe sent at
    time [at_] arms. *)
Definition probe_timeout {setup : Setup} : Z :=
  or_default (Args.expectedPongBack args) DEFAULT_EXPECTED_PONG_BACK.

Definition deadline_timer {setup : Setup} (at_ : Z) : Timer :=
  {| kind := Timeout; callback := pingTimeout_cb; delay := probe_timeout;
     due := at_ + effective_delay probe_timeout |}.

Definition reconnect_timer (at_ d : Z) : Timer :=
  {| kind := Timeout; callback := connect_cb; delay := d;
     due := at_ + effective_delay d |}.

(** The state a run from [w] ends in ([w] itself when the host cannot
    deliver the events). *)
Definition after {setup : Setup} (w : World) (evs : list Event) : World :=
  match run w evs with
  | Some (w', _) => w'
  | None => w
  end.

(** The demo listener after its first socket closed without opening: a
    reconnect is scheduled under handle 0. *)
Definition demo_closed : World :=
  after (setup := demo) demo_world [Closes 0%nat].

(** The demo listener, open for a minute: the keep-alive interval
    (handle 0) is due. *)
Definition demo_probe_due : World :=
  after (setup := demo) demo_world [Opens 0%nat; Elapse 60000].

(** The demo listener, subscribed under the identifier 0xsub. *)
Definition demo_subscribed : World :=
  after (setup := demo) demo_open [Message 0%nat (subscribed (Str "0xsub"))].

(** Two failed connections, then one that opens and closes. *)
Definition flaky_trace : list Event :=
  [Closes 0%nat; Elapse 1000; TimerFires 0%nat;
   Closes 1%nat; Elapse 2000; TimerFires 1%nat;
   Opens 2%nat; Closes 2%nat].

(** A probe every second with a second and a half to answer: two
    probes are out when the answer to the first arrives. *)
Definition hasty_probes : list Event :=
  [Opens 0%nat; Elapse 1000; TimerFires 0%nat;
   Elapse 1000; TimerFires 0%nat; Elapse 100].

(** An unanswered probe: a subscribe response and silence. *)
Definition silence : list Event :=
  [Elapse 5000; Message 0%nat (subscribed (Str "0xsub")); Elapse 10000].

(** ** Three statements the code does not meet, as they are worded *)

(** A frame that does not parse is logged by a log function at error
    level, and the handler returns. *)
Definition logged_by_sink_at_error {setup : Setup}
    (w : World) (c : ConnId) (data : MessageData) : Prop :=
  fst (fst (onmessage c data w)) = Normal tt
  /\ reaches_sink_at LError (snd (onmessage c data w)).


(** When [stop] has returned no reconnect timer remains scheduled. *)
Definition stop_cancels_reconnects {setup : Setup} (w : World) : Prop :=
  forall w' out,
    step w StopCalled = Some (w', out) ->
    forall t, ~ reconnect_pending t w'.

(** ** Further vocabulary *)

(** The reconnect delay lies between the floor and the ceiling. *)
Definition within_backoff (d : Z) : Prop := 1000 <= d <= 30000.

Definition is_close_request (e : Effect) : bool :=
  match e with EClose _ => true | _ => false end.

(** The sockets closed with [ws.close()]. *)
Definition close_requests (out : list Effect) : list Effect :=
  List.filter is_close_request out.

Definition is_send (e : Effect) : bool :=
  match e with ESend _ _ => true | _ => false end.

Definition is_terminate (e : Effect) : bool :=
  match e with ETerminate _ => true | _ => false end.

(** What leaves on a socket, and the forced terminations. *)
Definition sends (out : list Effect) : list Effect := List.filter is_send out.
Definition terminations (out : list Effect) : list Effect :=
  List.filter is_terminate out.

(** The keep-alive interval in force and the timer [ws.onopen] arms at
    time [at_]. *)
Definition keep_alive_interval {setup : Setup} : Z :=
  or_default (Args.keepAliveCheckInterval args) DEFAULT_KEEP_ALIVE_CHECK_INTERVAL.

Definition interval_timer {setup : Setup} (at_ : Z) : Timer :=
  {| kind := Interval; callback := keepAlive_cb; delay := keep_alive_interval;
     due := at_ + effective_delay keep_alive_interval |}.

(** [parsedData] is not an object ([null], a boolean, a number, a
    string, an array). *)
Definition is_object (v : Value) : bool :=
  match v with Obj _ => true | _ => false end.

(** A primitive compares equal to itself with [===]. *)
Definition is_primitive (v : Value) : bool :=
  match v with
  | Undefined | Null | Bool _ | Num _ | Str _ => true
  | _ => false
  end.

(** ** Counting reconnects *)

#[global] Instance Callback_eq_dec : EqDecision Callback.
Proof. solve_decision. Defined.

(** The number of reconnect timers in a timer table. *)
Definition reconnects_in (m : gmap nat Timer) : nat :=
  size (filter (fun p : nat * Timer => callback (snd p) = connect_cb) m).

Definition pending_reconnects (w : World) : nat := reconnects_in (timers w).

(** Handles at or above [next_timer] are free, and reconnects are
    one-shot timers. *)
Definition timers_tidy (w : World) : Prop :=
  forall t tm, timers w !! t = Some tm ->
    (t < next_timer w)%nat /\ (callback tm = connect_cb -> kind tm = Timeout).

(** ** Further concrete states and frames *)

(** The demo listener after its first probe went unanswered: socket 0
    is terminated and closing, its close not yet reported, and the
    keep-alive interval (handle 0) is due again. *)
Definition demo_terminating : World :=
  after (setup := demo) demo_probe_due
    [TimerFires 0%nat; Elapse 15000; TimerFires 1%nat; Elapse 45000].

(** The demo listener with a probe out: the deadline (handle 1) is
    held by [pingTimeout]. *)
Definition demo_probing : World :=
  after (setup := demo) demo_probe_due [TimerFires 0%nat].

(** A response with the probe's identifier and a truthy result that is
    not [true]. *)
Definition lax_pong : MessageData :=
  StringData (Normal (Obj [("jsonrpc", Str "2.0"); ("id", Num 2); ("result", Num 1)])).

(** A log whose topics are missing: the demo decoder throws on it. *)
Definition broken_log : Value := Obj [("data", Str "0x")].

(** A notification that names no subscription. *)
Definition anonymous_notification (logData : Value) : MessageData :=
  StringData (Normal (Obj [("jsonrpc", Str "2.0");
                           ("method", Str "eth_subscription");
                           ("params", Obj [("result", logData)])])).

Definition transfer_event : LogDescription.t :=
  {| LogDescription.name := "Transfer"; LogDescription.args := Str "0x01" |}.

Definition bigint_event : LogDescription.t :=
  {| LogDescription.name := "Transfer"; LogDescription.args := Host "BigInt" |}.

(** * Properties *)

Section Properties.

Context {setup : Setup}.

(** ** Running callbacks symbolically *)

Ltac break_match :=
  match goal with
  | |- context [match ?x with _ => _ end] =>
      lazymatch x with
      | context [match _ with _ => _ end] => fail
      | _ => destruct x eqn:?
      end
  end.

Ltac mstep :=
  cbv beta iota zeta delta
    [deliver bind ret gets modify emit throw lift skip log call_log
     setTimeout setInterval clearTimeout clearInterval
     ws_send ws_close ws_terminate new_WebSocket];
  cbn.

(** Runs the callback of [H : Some (deliver m w) = Some (w', out)] on
    an arbitrary state, splitting on what the callback reads, and
    leaves the goal at the resulting state and output. *)
Ltac msimpl :=
  mstep;
  repeat match goal with
    | E : ?f ?a = _ |- context [?f ?a] => rewrite E; mstep
    end.

Ltac mexec H :=
  unfold run_callback, fire, connect, keepAlive, onPingTimeout, onopen,
    onmessage, dispatch, call_callback, onerror, onclose,
    onUnexpectedResponse, stop, readyState_of, subscriptionId_of in H;
  revert H; msimpl;
  repeat (break_match; msimpl);
  intros H; try discriminate; simplify_eq.

(** [args.log] inside the helper: no array has a property of that
    name. *)
Lemma rest_has_no_log (rest : list Value) : array_prop rest "log" = Undefined.
Proof. reflexivity. Qed.

(** The helper [log] only leaves its own trace. *)
Lemma log_runs level message rest w :
  log level message rest w = (Normal tt, w, [ELog level message rest]).
Proof. reflexivity. Qed.

(** ** The log function is never reached *)

Lemma sink_calls_app out1 out2 :
  sink_calls (out1 ++ out2) = sink_calls out1 ++ sink_calls out2.
Proof. apply List.filter_app. Qed.

Ltac run_silent w :=
  intros w; msimpl; repeat (break_match; msimpl); reflexivity.

Lemma connect_silent : silent connect.
Proof. unfold connect. run_silent w. Qed.

Lemma keepAlive_silent : silent keepAlive.
Proof. unfold keepAlive, readyState_of. run_silent w. Qed.

Lemma onPingTimeout_silent : silent onPingTimeout.
Proof. unfold onPingTimeout. run_silent w. Qed.

Lemma onopen_silent : silent onopen.
Proof. unfold onopen. run_silent w. Qed.

Lemma onmessage_silent c data : silent (onmessage c data).
Proof.
  unfold onmessage, dispatch, call_callback, subscriptionId_of.
  destruct data as [[v|e]|[v|e]|]; try (intros w; reflexivity).
  all: run_silent w.
Qed.

Lemma onerror_silent : silent onerror.
Proof. intros w. reflexivity. Qed.

Lemma onclose_silent : silent onclose.
Proof. unfold onclose. run_silent w. Qed.

Lemma stop_silent : silent stop.
Proof. unfold stop. run_silent w. Qed.

Lemma onUnexpectedResponse_silent : silent onUnexpectedResponse.
Proof. unfold onUnexpectedResponse, stop. run_silent w. Qed.

Lemma deliver_silent m w : silent m -> sink_calls (snd (deliver m w)) = [].
Proof.
  intros Hm. unfold deliver. specialize (Hm w).
  destruct (m w) as [[[a|e] w1] out]; cbn [snd] in *; [exact Hm|].
  rewrite sink_calls_app, Hm. reflexivity.
Qed.

Lemma run_callback_silent cb : silent (run_callback cb).
Proof.
  destruct cb; [apply connect_silent | apply keepAlive_silent
               | apply onPingTimeout_silent].
Qed.

Lemma step_sink_calls w ev w' out :
  step w ev = Some (w', out) -> sink_calls out = [].
Proof.
  assert (D : forall m x, silent m ->
                Some (deliver m x) = Some (w', out) -> sink_calls out = []).
  { intros m x Hm E. injection E as E. apply (f_equal snd) in E.
    cbn [snd] in E. subst out. now apply deliver_silent. }
  destruct ev; cbn [step]; unfold on_socket; intros H.
  - destruct (Z.leb 0 dt); now inversion H.
  - destruct (timers w !! t) as [tm|]; [|discriminate].
    destruct (Z.leb (due tm) (now w)); [|discriminate].
    eapply D, H. apply run_callback_silent.
  - destruct (sockets w !! c); [|discriminate]. eapply D, H. apply onopen_silent.
  - destruct (sockets w !! c); [|discriminate]. eapply D, H. apply onmessage_silent.
  - destruct (sockets w !! c); [|discriminate]. eapply D, H. apply onerror_silent.
  - destruct (sockets w !! c); [|discriminate]. eapply D, H. apply onclose_silent.
  - destruct (sockets w !! c); [|discriminate]. eapply D, H.
    apply onUnexpectedResponse_silent.
  - eapply D, H. apply stop_silent.
Qed.

Lemma run_sink_calls evs : forall w w' out,
  run w evs = Some (w', out) -> sink_calls out = [].
Proof.
  induction evs as [|ev evs IH]; intros w w' out H; cbn [run] in H.
  - now inversion H.
  - destruct (step w ev) as [[w1 out1]|] eqn:E1; [|discriminate].
    destruct (run w1 evs) as [[w2 out2]|] eqn:E2; [|discriminate].
    inversion H; subst; clear H.
    rewrite sink_calls_app, (step_sink_calls _ _ _ _ E1), (IH _ _ _ E2).
    reflexivity.
Qed.

(** C10.  Inside the helper [log], [args] is the array of extra
    arguments, and its property [log] is [undefined] whatever the
    array.  So the helper never calls anything: whatever the level,
    the message, the extra arguments and the state, it leaves the state
    as it is and only its own trace.  No call of a log function
    happens when the listener is created, nor in any run of events
    from any state, whether or not the caller supplied [args.log]. *)
Theorem C10_log_sink_never_invoked :
  (forall rest, truthy (array_prop rest "log") = false)
  /\ (forall level message rest w,
        log level message rest w = (Normal tt, w, [ELog level message rest]))
  /\ sink_calls (snd resilientEventListener) = []
  /\ (forall w evs w' out,
        run w evs = Some (w', out) -> sink_calls out = []).
Proof.
  split; [intros rest; now rewrite rest_has_no_log|].
  split; [exact log_runs|]. split.
  - unfold resilientEventListener. apply deliver_silent, connect_silent.
  - intros w evs w' out E. exact (run_sink_calls _ _ _ _ E).
Qed.

(** ** Backoff *)

Lemma step_backoff w ev w' out :
  stopped w = false -> is_stop_request ev = false ->
  step w ev = Some (w', out) ->
  stopped w' = false /\
  forall rest,
    reconnects out ++ backoff (reconnectDelay w') rest
    = backoff (reconnectDelay w) (ev :: rest).
Proof.
  intros Hs Hev H.
  destruct ev; try discriminate; cbn [step] in H; unfold on_socket in H.
  - destruct (Z.leb 0 dt); [|discriminate]. injection H as <- <-. auto.
  - destruct (timers w !! t) as [[k cb ms d]|]; [|discriminate].
    cbn [due callback] in H.
    destruct (Z.leb d (now w)); [|discriminate].
    destruct k, cb; mexec H; cbn; auto.
  - destruct (sockets w !! c); [|discriminate].
    mexec H; cbn; auto.
  - destruct (sockets w !! c); [|discriminate].
    destruct data as [[v|e]|[v|e]|]; mexec H; cbn; auto.
  - destruct (sockets w !! c); [|discriminate].
    mexec H; cbn; auto.
  - destruct (sockets w !! c); [|discriminate].
    mexec H; cbn; auto.
Qed.

Lemma run_backoff evs : forall w w' out,
  stopped w = false -> no_stop_request evs = true ->
  run w evs = Some (w', out) ->
  reconnects out = backoff (reconnectDelay w) evs.
Proof.
  induction evs as [|ev evs IH]; intros w w' out Hs Hev H; cbn [run] in H.
  - now simplify_eq.
  - destruct (step w ev) as [[w1 out1]|] eqn:E1; [|discriminate].
    destruct (run w1 evs) as [[w2 out2]|] eqn:E2; [|discriminate].
    simplify_eq. cbn [no_stop_request forallb] in Hev.
    apply andb_prop in Hev as [Hev Hrest].
    apply negb_true_iff in Hev.
    destruct (step_backoff _ _ _ _ Hs Hev E1) as [Hs1 Hout].
    unfold reconnects. rewrite omap_app. fold (reconnects out1).
    fold (reconnects out2). rewrite (IH _ _ _ Hs1 Hrest E2). apply Hout.
Qed.

Lemma capped_doubling_next k :
  Z.min (capped_doubling k * 2) 30000 = capped_doubling (S k).
Proof.
  unfold capped_doubling. rewrite Nat2Z.inj_succ, Z.pow_succ_r by lia.
  assert (0 < 2 ^ Z.of_nat k) by (apply Z.pow_pos_nonneg; lia). lia.
Qed.

Lemma backoff_without_open evs : forall k,
  forallb (fun ev => negb (is_open ev)) evs = true ->
  backoff (capped_doubling k) evs
  = map capped_doubling (seq k (closes evs)).
Proof.
  induction evs as [|ev evs IH]; intros k H; [reflexivity|].
  cbn [forallb] in H. apply andb_prop in H as [Hev H].
  destruct ev; try discriminate; cbn [backoff]; try (apply IH, H).
  unfold closes. cbn [List.filter is_close length seq map].
  rewrite capped_doubling_next. f_equal. apply IH, H.
Qed.

(** C1.  In a run of events without a stop request, from any state in
    which [stop] has not been called, the reconnects scheduled are
    those of the specification's backoff: one per close, after the
    delay current at that close, which a close doubles up to 30 s and
    an open resets to 1 s.  The listener starts at 1 s, and in a
    stretch without an open the closes get 1 s, 2 s, 4 s, ..., capped
    at 30 s. *)
Theorem C1_one_reconnect_per_close_with_backoff :
  (forall w evs w' out,
     stopped w = false -> no_stop_request evs = true ->
     run w evs = Some (w', out) ->
     reconnects out = backoff (reconnectDelay w) evs
     /\ length (reconnects out) = closes evs)
  /\ reconnectDelay (fst resilientEventListener) = 1000
  /\ (forall evs,
        forallb (fun ev => negb (is_open ev)) evs = true ->
        backoff 1000 evs = map capped_doubling (seq 0 (closes evs))).
Proof.
  split; [|split].
  - intros w evs w' out Hs Hev H.
    rewrite (run_backoff _ _ _ _ Hs Hev H). split; [reflexivity|].
    clear. generalize (reconnectDelay w).
    induction evs as [|ev evs IH]; intros d; [reflexivity|].
    destruct ev; cbn [backoff]; unfold closes in *;
      cbn [List.filter is_close length]; rewrite IH; reflexivity.
  - reflexivity.
  - intros evs H. apply (backoff_without_open evs 0%nat H).
Qed.

(** ** After [stop] *)

Lemma step_stopped w ev w' out :
  stopped w = true -> step w ev = Some (w', out) ->
  stopped w' = true /\ connection_attempts out = [].
Proof.
  intros Hs H.
  destruct ev; cbn [step] in H; unfold on_socket in H.
  - destruct (Z.leb 0 dt); [|discriminate]. simplify_eq. auto.
  - destruct (timers w !! t) as [[k cb ms d]|]; [|discriminate].
    cbn [due callback] in H.
    destruct (Z.leb d (now w)); [|discriminate].
    destruct k, cb; mexec H; cbn; auto.
  - destruct (sockets w !! c); [|discriminate]. mexec H; cbn; auto.
  - destruct (sockets w !! c); [|discriminate].
    destruct data as [[v|e]|[v|e]|]; mexec H; cbn; auto.
  - destruct (sockets w !! c); [|discriminate]. mexec H; cbn; auto.
  - destruct (sockets w !! c); [|discriminate]. mexec H; cbn; auto.
  - destruct (sockets w !! c); [|discriminate]. mexec H; cbn; auto.
  - mexec H; cbn; auto.
Qed.

Lemma run_stopped evs : forall w w' out,
  stopped w = true -> run w evs = Some (w', out) ->
  stopped w' = true /\ connection_attempts out = [].
Proof.
  induction evs as [|ev evs IH]; intros w w' out Hs H; cbn [run] in H.
  - simplify_eq. auto.
  - destruct (step w ev) as [[w1 out1]|] eqn:E1; [|discriminate].
    destruct (run w1 evs) as [[w2 out2]|] eqn:E2; [|discriminate].
    simplify_eq.
    destruct (step_stopped _ _ _ _ Hs E1) as [Hs1 Ho1].
    destruct (IH _ _ _ Hs1 E2) as [Hs2 Ho2].
    split; [exact Hs2|].
    unfold connection_attempts in *. rewrite List.filter_app, Ho1, Ho2.
    reflexivity.
Qed.

Lemma stop_sets_stopped w w' out :
  step w StopCalled = Some (w', out) ->
  stopped w' = true /\ connection_attempts out = [].
Proof. intros H. cbn [step] in H. mexec H; cbn; auto. Qed.

(** C2.  Once [stop()] has been called, whatever timers are pending at
    that moment and whatever events follow (timers firing, sockets
    opening, closing, delivering messages), no [new WebSocket] is
    executed, neither by [stop] itself nor afterwards, and the stopped
    flag stays set. *)
Theorem C2_no_connection_attempt_after_stop w evs w' out :
  run w (StopCalled :: evs) = Some (w', out) ->
  connection_attempts out = [] /\ stopped w' = true.
Proof.
  intros H. cbn [run] in H.
  destruct (step w StopCalled) as [[w1 out1]|] eqn:E1; [|discriminate].
  destruct (run w1 evs) as [[w2 out2]|] eqn:E2; [|discriminate].
  simplify_eq.
  destruct (stop_sets_stopped _ _ _ E1) as [Hs1 Ho1].
  destruct (run_stopped _ _ _ _ Hs1 E2) as [Hs2 Ho2].
  split; [|exact Hs2].
  unfold connection_attempts in *. rewrite List.filter_app, Ho1, Ho2.
  reflexivity.
Qed.

(** ** Timer handles *)

Lemma handles_typed_same w w' :
  timers w' = timers w -> next_timer w' = next_timer w ->
  pingTimeout w' = pingTimeout w ->
  keepAliveInterval w' = keepAliveInterval w ->
  handles_typed w -> handles_typed w'.
Proof.
  unfold handles_typed. intros E1 E2 E3 E4. rewrite E1, E2, E3, E4.
  exact (fun H => H).
Qed.

Lemma handles_typed_disarm t w : handles_typed w -> handles_typed (disarm t w).
Proof.
  intros (Hk & Hp & Ha). unfold handles_typed, disarm. cbn.
  split; [|split].
  - intros t' tm H. apply lookup_delete_Some in H as [_ H]. eauto.
  - intros t' E. destruct (Hp _ E) as [Hlt Hc]. split; [exact Hlt|].
    intros tm H. apply lookup_delete_Some in H as [_ H]. eauto.
  - intros t' E. destruct (Ha _ E) as [Hlt Hc]. split; [exact Hlt|].
    intros tm H. apply lookup_delete_Some in H as [_ H]. eauto.
Qed.

Lemma handles_typed_arm k cb ms w :
  handles_typed w -> handles_typed (arm k cb ms w).
Proof.
  intros (Hk & Hp & Ha). unfold handles_typed, arm. cbn.
  split; [|split].
  - intros t' tm H. apply lookup_insert_Some in H as [[<- _]|[_ H]];
      [lia|]. apply Hk in H. lia.
  - intros t' E. destruct (Hp _ E) as [Hlt Hc]. split; [lia|].
    intros tm H. apply lookup_insert_Some in H as [[Heq _]|[_ H]];
      [lia|eauto].
  - intros t' E. destruct (Ha _ E) as [Hlt Hc]. split; [lia|].
    intros tm H. apply lookup_insert_Some in H as [[Heq _]|[_ H]];
      [lia|eauto].
Qed.

Lemma handles_typed_forget_deadline w :
  handles_typed w -> handles_typed (set_pingTimeout None w).
Proof.
  intros (Hk & Hp & Ha). unfold handles_typed. cbn.
  split; [exact Hk|]. split; [discriminate|exact Ha].
Qed.

Lemma handles_typed_deadline ms t w :
  t = next_timer w ->
  handles_typed w ->
  handles_typed (set_pingTimeout (Some t) (arm Timeout pingTimeout_cb ms w)).
Proof.
  intros -> Hw. pose proof (handles_typed_arm Timeout pingTimeout_cb ms w Hw)
    as (Hk & Hp & Ha).
  unfold handles_typed. split; [exact Hk|]. split; [|exact Ha].
  cbn. intros t' E. simplify_eq. split; [lia|].
  intros tm H. rewrite lookup_insert_eq in H. now simplify_eq.
Qed.

Lemma handles_typed_interval ms t w :
  t = next_timer w ->
  handles_typed w ->
  handles_typed
    (set_keepAliveInterval (Some t) (arm Interval keepAlive_cb ms w)).
Proof.
  intros -> Hw. pose proof (handles_typed_arm Interval keepAlive_cb ms w Hw)
    as (Hk & Hp & Ha).
  unfold handles_typed. split; [exact Hk|]. split; [exact Hp|].
  cbn. intros t' E. simplify_eq. split; [lia|].
  intros tm H. rewrite lookup_insert_eq in H. now simplify_eq.
Qed.

Lemma handles_typed_fire t tm w :
  timers w !! t = Some tm -> handles_typed w -> handles_typed (fire t tm w).
Proof.
  intros Et Hw. unfold fire. destruct (kind tm).
  - now apply handles_typed_disarm.
  - destruct Hw as (Hk & Hp & Ha). unfold handles_typed. cbn.
    split; [|split].
    + intros t' tm' H. apply lookup_insert_Some in H as [[<- _]|[_ H]]; eauto.
    + intros t' E. destruct (Hp _ E) as [Hlt Hc]. split; [exact Hlt|].
      intros tm' H. apply lookup_insert_Some in H as [[-> <-]|[_ H]];
        cbn [callback]; eauto.
    + intros t' E. destruct (Ha _ E) as [Hlt Hc]. split; [exact Hlt|].
      intros tm' H. apply lookup_insert_Some in H as [[-> <-]|[_ H]];
        cbn [callback]; eauto.
Qed.

(** Peels the updates off the state a callback ended in. *)
Ltac solve_handles :=
  repeat first
    [ assumption
    | apply handles_typed_deadline; [reflexivity|]
    | apply handles_typed_interval; [reflexivity|]
    | apply handles_typed_forget_deadline
    | apply handles_typed_disarm
    | apply handles_typed_arm
    | apply handles_typed_fire; [eassumption|]
    | match goal with
      | |- handles_typed (?f _ ?w) =>
          apply (handles_typed_same w); [reflexivity ..|]
      | |- handles_typed (?f _ _ ?w) =>
          apply (handles_typed_same w); [reflexivity ..|]
      end ].

Lemma step_handles_typed w ev w' out :
  handles_typed w -> step w ev = Some (w', out) -> handles_typed w'.
Proof.
  intros Hw H.
  destruct ev; cbn [step] in H; unfold on_socket in H.
  - destruct (Z.leb 0 dt); [|discriminate]. simplify_eq.
    revert Hw. now apply handles_typed_same.
  - destruct (timers w !! t) as [tm|] eqn:Et; [|discriminate].
    destruct (Z.leb (due tm) (now w)); [|discriminate].
    pose proof (handles_typed_fire _ _ _ Et Hw) as Hf.
    remember (fire t tm w) as w0 eqn:Ew0. clear Ew0 Et Hw.
    destruct (callback tm); mexec H; solve_handles.
  - destruct (sockets w !! c); [|discriminate]. mexec H; solve_handles.
  - destruct (sockets w !! c); [|discriminate].
    destruct data as [[v|e]|[v|e]|]; mexec H; solve_handles.
  - destruct (sockets w !! c); [|discriminate]. mexec H; solve_handles.
  - destruct (sockets w !! c); [|discriminate]. mexec H; solve_handles.
  - destruct (sockets w !! c); [|discriminate]. mexec H; solve_handles.
  - mexec H; solve_handles.
Qed.

Lemma created_handles_typed : handles_typed (fst resilientEventListener).
Proof.
  unfold handles_typed. cbn. repeat split; intros; try discriminate.
  all: rewrite lookup_empty in *; discriminate.
Qed.

Lemma reachable_handles_typed w : reachable w -> handles_typed w.
Proof.
  induction 1 as [|w ev w' out _ IH H].
  - apply created_handles_typed.
  - exact (step_handles_typed _ _ _ _ IH H).
Qed.

Lemma reachable_run evs : forall w w' out,
  reachable w -> run w evs = Some (w', out) -> reachable w'.
Proof.
  induction evs as [|ev evs IH]; intros w w' out Hw H; cbn [run] in H.
  - now simplify_eq.
  - destruct (step w ev) as [[w1 out1]|] eqn:E1; [|discriminate].
    destruct (run w1 evs) as [[w2 out2]|] eqn:E2; [|discriminate].
    simplify_eq. eapply IH; [|exact E2]. eapply reachable_step; eauto.
Qed.

(** ** [stop] and the reconnect timer *)

(** C9, as the code has it.  [stop()] does not cancel a pending
    reconnect timer: in every reachable state, a reconnect timer
    pending when [stop] is called is still pending, unchanged, when
    [stop] returns, and [stop] issues no [clearTimeout] for it.  It is
    left to the guard of [connect]: when the timer fires, [connect]
    only logs that the listener is stopped, and no run of events after
    [stop] opens a connection. *)
Theorem C9_stop_leaves_reconnect_timer_to_the_guard w t tm w1 out1 :
  reachable w ->
  timers w !! t = Some tm -> callback tm = connect_cb ->
  step w StopCalled = Some (w1, out1) ->
  timers w1 !! t = Some tm
  /\ ~ In (EClearTimeout t) out1
  /\ (forall dt w2 out2,
        run w1 [Elapse dt; TimerFires t] = Some (w2, out2) ->
        out2 = [ELog LInfo "Listener stopped, not reconnecting." []])
  /\ (forall evs w2 out2,
        run w1 evs = Some (w2, out2) -> connection_attempts out2 = []).
Proof.
  intros Hr Ht Hcb H.
  pose proof (reachable_handles_typed _ Hr) as (_ & Hp & Ha).
  assert (Hs1 : stopped w1 = true) by (apply (stop_sets_stopped _ _ _ H)).
  assert (Hnp : pingTimeout w <> Some t).
  { intros E. destruct (Hp _ E) as [_ Hc]. rewrite (Hc _ Ht) in Hcb.
    discriminate. }
  assert (Hna : keepAliveInterval w <> Some t).
  { intros E. destruct (Ha _ E) as [_ Hc]. rewrite (Hc _ Ht) in Hcb.
    discriminate. }
  assert (Ht1 : timers w1 !! t = Some tm /\ ~ In (EClearTimeout t) out1).
  { clear Hp Ha Hr Hs1. cbn [step] in H. mexec H;
      unfold disarm, update_socket; cbn;
      rewrite ?lookup_delete_ne by congruence;
      (split; [assumption|]); cbn; intuition congruence. }
  destruct Ht1 as [Ht1 Hno]. repeat split; [exact Ht1|exact Hno| |].
  - intros dt w2 out2 R. cbn [run step] in R.
    destruct (Z.leb 0 dt); [|discriminate].
    cbn [timers set_now] in R.
    replace (timers (set_now (now w1 + dt) w1)) with (timers w1) in R
      by (destruct w1; reflexivity).
    rewrite Ht1 in R.
    destruct (Z.leb (due tm) _); [|discriminate].
    rewrite Hcb in R. clear Ht1 H Hno Hp Ha Hr.
    destruct tm as [kd cb ms d]. destruct kd.
    all: mexec R; reflexivity.
  - intros evs w2 out2 R. apply (run_stopped _ _ _ _ Hs1 R).
Qed.

(** ** Messages *)

Lemma parsed_Some data v :
  parsed data = Some v ->
  data = StringData (Normal v) \/ data = BufferData (Normal v).
Proof.
  destruct data as [[x|e]|[x|e]|]; cbn; intros H; simplify_eq; auto.
Qed.

Lemma onmessage_parsed c data v w :
  parsed data = Some v -> onmessage c data w = dispatch c v w.
Proof. intros H. destruct (parsed_Some _ _ H) as [-> | ->]; reflexivity. Qed.

Lemma deliver_message w c data s r w' out :
  sockets w !! c = Some s ->
  onmessage c data w = (r, w', out) ->
  step w (Message c data)
  = Some (w', out ++ match r with Throw e => [EUncaught e] | Normal _ => [] end).
Proof.
  intros Hs H. cbn [step]. unfold on_socket, deliver. rewrite Hs, H.
  destruct r; [rewrite app_nil_r|]; reflexivity.
Qed.

(** C5, at the input on which the code departs from it.  A
    notification without [params] matches none of the three
    classifications, and [ws.onmessage] does not drop it: reading
    [parsedData.params.subscription] throws a [TypeError] outside the
    [try] block, which leaves the handler uncaught, in every state and
    for every configuration. *)
Theorem C5_notification_without_params_throws w c :
  is_handshake_response bare_notification = false
  /\ is_probe_response bare_notification = false
  /\ get bare_notification "params" = Normal Undefined
  /\ onmessage c (StringData (Normal bare_notification)) w
     = (Throw TypeError, w, [])
  /\ (forall s, sockets w !! c = Some s ->
        step w (Message c (StringData (Normal bare_notification)))
        = Some (w, [EUncaught TypeError])).
Proof.
  assert (E : onmessage c (StringData (Normal bare_notification)) w
              = (Throw TypeError, w, [])) by reflexivity.
  repeat split; try reflexivity.
  intros s Hs. rewrite (deliver_message _ _ _ _ _ _ _ Hs E). reflexivity.
Qed.

(** C6, as the code has it.  A frame that does not parse is handed to
    the helper [log], at error level when its text is not JSON and at
    warn level when its data is neither a string nor a [Buffer]; the
    handler returns normally and changes nothing: the state, the
    socket and the timers are as before, and no callback is called. *)
Theorem C6_unparsable_frame_is_logged_and_dropped w c data :
  parsed data = None ->
  onmessage c data w = (Normal tt, w, [failure_log data])
  /\ log_levels [failure_log data]
     = [match data with OtherData => LWarn | _ => LError end]
  /\ (forall s, sockets w !! c = Some s ->
        step w (Message c data) = Some (w, [failure_log data])).
Proof.
  intros H.
  assert (E : onmessage c data w = (Normal tt, w, [failure_log data])).
  { destruct data as [[v|e]|[v|e]|]; try discriminate; reflexivity. }
  repeat split; [exact E| |].
  - destruct data as [[v|e]|[v|e]|]; try discriminate; reflexivity.
  - intros s Hs. rewrite (deliver_message _ _ _ _ _ _ _ Hs E).
    reflexivity.
Qed.

Lemma get_not_nullish v k x : get v k = Normal x -> opt_get v k = x.
Proof. unfold opt_get. now intros ->. Qed.

Lemma handshake_has_result v :
  is_handshake_response v = true ->
  get v "result" = Normal (opt_get v "result").
Proof.
  unfold is_handshake_response, opt_get.
  destruct v; cbn; try discriminate; reflexivity.
Qed.

(** [ToString] completes on every primitive value. *)
Lemma primitive_to_string v : is_primitive v = true -> to_string v = Normal tt.
Proof. destruct v; cbn; try discriminate; reflexivity. Qed.

(** The subscribe response: the result is stored first; the log line
    is reached unless converting the result to a string throws. *)
Lemma handshake_runs c v w :
  is_handshake_response v = true ->
  dispatch c v w
  = match to_string (opt_get v "result") with
    | Normal _ =>
        (Normal tt, update_socket c (set_subscriptionId (opt_get v "result")) w,
         [ELog LInfo "Subscription to event '${args.eventName}' established with ID '${parsedData.result}'." []])
    | Throw e =>
        (Throw e, update_socket c (set_subscriptionId (opt_get v "result")) w, [])
    end.
Proof.
  intros Hh. unfold dispatch.
  change (opt_get request "id") with (Num 1).
  pose proof (handshake_has_result _ Hh) as Hres.
  unfold is_handshake_response in Hh. rewrite Hh.
  mstep. rewrite Hres. mstep.
  destruct (to_string (opt_get v "result")); reflexivity.
Qed.

(** A notification that passed the three conditions and the reading of
    [params.subscription]. *)
Lemma notification_runs c v params subscription w :
  is_handshake_response v = false ->
  is_probe_response v = false ->
  is_notification v = true ->
  get v "params" = Normal params ->
  get params "subscription" = Normal subscription ->
  dispatch c v w
  = if strict_eq subscription (subscriptionId_of c w) then
      (let* logData := lift (get params "result") in
       let* eventLog := lift (parseLog logData) in
       log LInfo "Received event ${eventLog?.name}:" [eventLog_args eventLog] >>
       call_callback eventLog) w
    else (Normal tt, w, []).
Proof.
  intros Hh Hr Hn Hg1 Hg2. unfold dispatch.
  change (opt_get request "id") with (Num 1).
  change (opt_get ping "id") with (Num 2).
  unfold is_handshake_response, is_probe_response, is_notification in *.
  rewrite Hh, Hr, Hn.
  cbv beta iota zeta delta [bind lift gets]. rewrite Hg1, Hg2.
  destruct (strict_eq subscription (subscriptionId_of c w)); [|reflexivity].
  cbv beta iota zeta delta [bind lift gets].
  destruct (get params "result") as [logData|e]; [|reflexivity].
  destruct (parseLog logData) as [eventLog|e]; [|reflexivity].
  destruct (log _ _ _ w) as [[[[]|e] w1] out1]; [|reflexivity].
  destruct (call_callback eventLog w1) as [[r w2] out2].
  reflexivity.
Qed.

(** What the call of the callback leaves: the call, and what the
    callback completes with. *)
Lemma callback_runs eventLog w :
  call_callback eventLog w
  = (callback_outcome eventLog, w,
     match Args.callback args with
     | Some f => [ECallback f eventLog]
     | None => []
     end).
Proof.
  unfold call_callback, callback_outcome.
  destruct (Args.callback args); [|reflexivity].
  mstep. destruct (callback_completion eventLog) as [[]|e]; reflexivity.
Qed.

(** A matching notification once its log is decoded: the event is
    logged, then handed to the callback. *)
Lemma decoded_runs c v params subscription logData eventLog w :
  is_handshake_response v = false ->
  is_probe_response v = false ->
  is_notification v = true ->
  get v "params" = Normal params ->
  get params "subscription" = Normal subscription ->
  strict_eq subscription (subscriptionId_of c w) = true ->
  get params "result" = Normal logData ->
  parseLog logData = Normal eventLog ->
  dispatch c v w
  = (callback_outcome eventLog, w,
     ELog LInfo "Received event ${eventLog?.name}:" [eventLog_args eventLog]
     :: match Args.callback args with
        | Some f => [ECallback f eventLog]
        | None => []
        end).
Proof.
  intros Hh Hr Hn Hg1 Hg2 Heq Hg3 Hdec.
  rewrite (notification_runs _ _ _ _ _ Hh Hr Hn Hg1 Hg2), Heq.
  cbv beta iota zeta delta [bind lift]. rewrite Hg3, Hdec, log_runs, callback_runs.
  destruct (callback_outcome eventLog) as [[]|e]; reflexivity.
Qed.

(** The same when the decoder throws: nothing is logged or called. *)
Lemma undecoded_throws c v params subscription logData e w :
  is_handshake_response v = false ->
  is_probe_response v = false ->
  is_notification v = true ->
  get v "params" = Normal params ->
  get params "subscription" = Normal subscription ->
  strict_eq subscription (subscriptionId_of c w) = true ->
  get params "result" = Normal logData ->
  parseLog logData = Throw e ->
  dispatch c v w = (Throw e, w, []).
Proof.
  intros Hh Hr Hn Hg1 Hg2 Heq Hg3 Hdec.
  rewrite (notification_runs _ _ _ _ _ Hh Hr Hn Hg1 Hg2), Heq.
  cbv beta iota zeta delta [bind lift]. rewrite Hg3, Hdec. reflexivity.
Qed.


(** C8, where the code departs from it.  On a notification whose
    [params.subscription] is strictly equal to the stored identifier,
    [parseLog] is called outside any [try].  When the decoding fails
    with an exception, the failure is not recovered: the exception
    leaves [ws.onmessage] uncaught, the callback is not called,
    nothing is logged, and the state is as it was.  Only a decoder
    that returns [null] leads to a call of the callback with [null],
    exactly once, and the handler then completes as that call does. *)
Theorem C8_decode_exception_leaves_the_handler
    w c data v params subscription logData :
  parsed data = Some v ->
  is_handshake_response v = false ->
  is_probe_response v = false ->
  is_notification v = true ->
  get v "params" = Normal params ->
  get params "subscription" = Normal subscription ->
  strict_eq subscription (subscriptionId_of c w) = true ->
  get params "result" = Normal logData ->
  (forall e, parseLog logData = Throw e ->
     onmessage c data w = (Throw e, w, [])
     /\ forall s, sockets w !! c = Some s ->
          exists out,
            step w (Message c data) = Some (w, out)
            /\ uncaught out = [EUncaught e]
            /\ callback_calls out = [])
  /\ (parseLog logData = Normal None ->
      exists out,
        onmessage c data w = (callback_outcome None, w, out)
        /\ callback_calls out
           = match Args.callback args with Some _ => [None] | None => [] end).
Proof.
  intros Hp Hh Hr Hn Hg1 Hg2 Heq Hg3.
  rewrite (onmessage_parsed _ _ _ _ Hp). split.
  - intros e Hdec.
    pose proof (undecoded_throws _ _ _ _ _ _ w Hh Hr Hn Hg1 Hg2 Heq Hg3 Hdec)
      as E.
    split; [exact E|].
    intros s Hs. exists [EUncaught e].
    rewrite <- (onmessage_parsed _ _ _ _ Hp) in E.
    rewrite (deliver_message _ _ _ _ _ _ _ Hs E). repeat split.
  - intros Hdec.
    rewrite (decoded_runs _ _ _ _ _ _ w Hh Hr Hn Hg1 Hg2 Heq Hg3 Hdec).
    eexists. split; [reflexivity|].
    destruct (Args.callback args); reflexivity.
Qed.

(** ** The liveness probe *)

Lemma probe_sent w c k w1 out1 :
  reachable w ->
  ws w = Some c -> readyState_of c w = OPEN -> stopped w = false ->
  keepAliveInterval w = Some k ->
  step w (TimerFires k) = Some (w1, out1) ->
  out1 = [ELog LDebug "Performing health check for subscription to '${args.eventName}'." [];
          ESend c ping;
          ESetTimeout (next_timer w) pingTimeout_cb probe_timeout]
  /\ probing c k (next_timer w) (deadline_timer (now w)) (reconnectDelay w) w1.
Proof.
  intros Hr Hws Hopen Hs Hk H.
  pose proof (reachable_handles_typed _ Hr) as (Hlt & _ & Ha).
  destruct (Ha _ Hk) as [Hklt Hkcb]. clear Ha Hr.
  cbn [step] in H.
  destruct (timers w !! k) as [tm|] eqn:Et; [|discriminate].
  destruct (Z.leb (due tm) (now w)); [|discriminate].
  rewrite (Hkcb _ eq_refl) in H. unfold readyState_of in Hopen.
  mexec H; (split; [reflexivity|]);
    unfold probing, arm, disarm, deadline_timer, probe_timeout; cbn;
    repeat split; try assumption; try lia.
  - apply lookup_insert_eq.
  - intros tm' H. rewrite lookup_insert_ne, lookup_delete_eq in H by lia.
    discriminate.
  - apply lookup_insert_eq.
  - intros tm' H. rewrite lookup_insert_ne, lookup_insert_eq in H by lia.
    simplify_eq. cbn. auto.
Qed.

Lemma truthy_true v : strict_eq v (Bool true) = true -> truthy v = true.
Proof. destruct v as [| |[]| | | | | |]; cbn; congruence. Qed.

Lemma not_answering v : answers_probe v = false -> is_probe_response v = false.
Proof.
  unfold answers_probe, is_probe_response.
  destruct (strict_eq (opt_get v "id") (Num 2)); [|reflexivity].
  cbn. destruct (strict_eq (opt_get v "result") (Bool true)) eqn:E;
    [|reflexivity].
  now rewrite (truthy_true _ E).
Qed.

(** A message that is not the probe's response leaves everything but
    the sockets' subscription identifiers as it was. *)
Lemma onmessage_elsewhere c data w r w' out :
  (forall v, parsed data = Some v -> is_probe_response v = false) ->
  onmessage c data w = (r, w', out) ->
  ws w' = ws w /\ stopped w' = stopped w
  /\ reconnectDelay w' = reconnectDelay w
  /\ timers w' = timers w /\ next_timer w' = next_timer w.
Proof.
  intros Hn H.
  destruct (parsed data) as [v|] eqn:Ep.
  - rewrite (onmessage_parsed _ _ _ _ Ep) in H. specialize (Hn v eq_refl).
    unfold dispatch in H.
    change (opt_get request "id") with (Num 1) in H.
    change (opt_get ping "id") with (Num 2) in H.
    unfold is_probe_response in Hn. rewrite Hn in H.
    unfold call_callback, subscriptionId_of in H.
    revert H. msimpl. repeat (break_match; msimpl).
    all: intros H; simplify_eq; repeat split; reflexivity.
  - destruct data as [[v|e]|[v|e]|]; try discriminate;
      cbn in H; simplify_eq; repeat split; reflexivity.
Qed.

Lemma quiet_keeps_probing c k t deadline d w ev w' out :
  callback deadline = pingTimeout_cb ->
  probing c k t deadline d w -> quiet k ev = true ->
  step w ev = Some (w', out) ->
  probing c k t deadline d w'.
Proof.
  intros Hcb (Hws & Hs & Hd & Ht & Htlt & Hklt & Hkcb) Hq H.
  destruct ev; try discriminate; cbn [step] in H; unfold on_socket in H.
  - destruct (Z.leb 0 dt); [|discriminate]. simplify_eq.
    repeat split; assumption.
  - cbn in Hq. apply Nat.eqb_eq in Hq. subst t0.
    destruct (timers w !! k) as [tm|] eqn:Et; [|discriminate].
    destruct (Z.leb (due tm) (now w)); [|discriminate].
    rewrite (Hkcb _ eq_refl) in H.
    assert (Hne : k <> t).
    { intros ->. rewrite Ht in Et. simplify_eq.
      rewrite (Hkcb _ eq_refl) in Hcb. discriminate. }
    mexec H; unfold probing, arm, disarm; cbn;
      repeat split; try assumption; try lia;
      rewrite ?lookup_insert_ne, ?lookup_delete_ne by lia; try assumption.
    all: intros tm' H;
      rewrite ?lookup_insert_ne, ?lookup_delete_eq, ?lookup_insert_eq in H
        by lia;
      simplify_eq; cbn; auto.
  - destruct (sockets w !! c0); [|discriminate].
    unfold deliver in H.
    destruct (onmessage c0 data w) as [[r w1] out1] eqn:E.
    assert (Hn : forall v, parsed data = Some v -> is_probe_response v = false).
    { intros v Ep. cbn in Hq. rewrite Ep in Hq.
      apply not_answering. now apply negb_true_iff. }
    destruct (onmessage_elsewhere _ _ _ _ _ _ Hn E)
      as (E1 & E2 & E3 & E4 & E5).
    assert (w' = w1) by (destruct r; now simplify_eq). subst w1.
    unfold probing. rewrite E1, E2, E3, E4, E5. repeat split; assumption.
  - destruct (sockets w !! c0); [|discriminate]. mexec H.
    repeat split; assumption.
Qed.

Lemma quiet_run_keeps_probing c k t deadline d evs : forall w w' out,
  callback deadline = pingTimeout_cb ->
  probing c k t deadline d w -> forallb (quiet k) evs = true ->
  run w evs = Some (w', out) ->
  probing c k t deadline d w'.
Proof.
  induction evs as [|ev evs IH]; intros w w' out Hcb Hp Hq H; cbn [run] in H.
  - now simplify_eq.
  - destruct (step w ev) as [[w1 out1]|] eqn:E1; [|discriminate].
    destruct (run w1 evs) as [[w2 out2]|] eqn:E2; [|discriminate].
    simplify_eq. cbn [forallb] in Hq. apply andb_prop in Hq as [Hq1 Hq2].
    eapply IH; [exact Hcb| |exact Hq2|exact E2].
    eapply quiet_keeps_probing; eauto.
Qed.

Lemma deadline_fires c k t d w w' out :
  probing c k t (deadline_timer d) (reconnectDelay w) w ->
  step w (TimerFires t) = Some (w', out) ->
  out = [ELog LWarn "Ping timeout, terminating WebSocket connection." [];
         ETerminate c]
  /\ stopped w' = false /\ reconnectDelay w' = reconnectDelay w
  /\ now w' = now w /\ next_timer w' = next_timer w
  /\ readyState_of c w' <> OPEN.
Proof.
  intros (Hws & Hs & _ & Ht & _) H. cbn [step] in H. rewrite Ht in H.
  cbn [due callback deadline_timer] in H.
  destruct (Z.leb _ (now w)); [|discriminate].
  assert (E : w' = update_socket c start_closing (disarm t w)
              /\ out = [ELog LWarn "Ping timeout, terminating WebSocket connection." [];
                        ETerminate c])
    by (mexec H; auto).
  destruct E as [-> ->]. repeat split; try assumption.
  unfold readyState_of, update_socket, start_closing. cbn.
  rewrite lookup_alter_eq.
  destruct (sockets w !! c) as [[[] sid]|]; cbn; discriminate.
Qed.

Lemma close_schedules_reconnect c w w' out :
  stopped w = false ->
  step w (Closes c) = Some (w', out) ->
  reconnects out = [reconnectDelay w]
  /\ timers w' !! next_timer w
     = Some (reconnect_timer (now w) (reconnectDelay w))
  /\ stopped w' = false.
Proof.
  intros Hs H. cbn [step] in H. unfold on_socket in H.
  destruct (sockets w !! c); [|discriminate].
  mexec H; unfold arm, disarm, reconnect_timer; cbn;
    (split; [reflexivity|]); (split; [|assumption]); apply lookup_insert_eq.
Qed.

Lemma reconnect_fires t at_ d dt w w' out :
  stopped w = false ->
  timers w !! t = Some (reconnect_timer at_ d) ->
  run w [Elapse dt; TimerFires t] = Some (w', out) ->
  connection_attempts out = [ENewWebSocket (next_socket w) (Args.rpcUrl args)]
  /\ ws w' = Some (next_socket w)
  /\ readyState_of (next_socket w) w' = CONNECTING.
Proof.
  intros Hs Ht H. cbn [run step] in H.
  destruct (Z.leb 0 dt); [|discriminate].
  replace (timers (set_now (now w + dt) w)) with (timers w) in H
    by (destruct w; reflexivity).
  rewrite Ht in H. cbn [due callback reconnect_timer] in H.
  destruct (Z.leb _ _); [|discriminate].
  assert (E : w' = set_ws (Some (next_socket w))
                   (set_next_socket (S (next_socket w))
                      (set_sockets
                         (<[next_socket w :=
                              {| readyState := CONNECTING;
                                 subscriptionId := Undefined |}]> (sockets w))
                         (disarm t (set_now (now w + dt) w))))
              /\ connection_attempts out
                 = [ENewWebSocket (next_socket w) (Args.rpcUrl args)])
    by (mexec H; auto).
  destruct E as [-> ->]. repeat split.
  unfold readyState_of. cbn. now rewrite lookup_insert_eq.
Qed.

(** C3.  In a reachable state with an open socket [c] and [stop] not
    called, let the keep-alive interval tick: a probe is sent on [c]
    and a deadline timer is armed for the configured probe timeout.
    If, from then on, only time passes, the interval ticks again,
    errors are reported and messages arrive of which none carries the
    probe's identifier with a truthy result, the deadline is still
    armed; when it fires it terminates [c]; the close that follows
    schedules exactly one reconnect, after the delay current when the
    probe was sent; and when that timer fires exactly one new socket
    is opened. *)
Theorem C3_unanswered_probe_terminates_and_reconnects_once
    w c k w1 out1 evs w2 out2 :
  reachable w ->
  ws w = Some c -> readyState_of c w = OPEN -> stopped w = false ->
  keepAliveInterval w = Some k ->
  step w (TimerFires k) = Some (w1, out1) ->
  forallb (quiet k) evs = true ->
  run w1 evs = Some (w2, out2) ->
  out1 = [ELog LDebug "Performing health check for subscription to '${args.eventName}'." [];
          ESend c ping;
          ESetTimeout (next_timer w) pingTimeout_cb probe_timeout]
  /\ timers w2 !! next_timer w = Some (deadline_timer (now w))
  /\ forall w3 out3,
       step w2 (TimerFires (next_timer w)) = Some (w3, out3) ->
       out3 = [ELog LWarn "Ping timeout, terminating WebSocket connection." [];
               ETerminate c]
       /\ forall w4 out4,
            step w3 (Closes c) = Some (w4, out4) ->
            reconnects out4 = [reconnectDelay w]
            /\ forall dt w5 out5,
                 run w4 [Elapse dt; TimerFires (next_timer w3)]
                 = Some (w5, out5) ->
                 connection_attempts out5
                 = [ENewWebSocket (next_socket w4) (Args.rpcUrl args)].
Proof.
  intros Hr Hws Hopen Hs Hk Htick Hq Hrun.
  destruct (probe_sent _ _ _ _ _ Hr Hws Hopen Hs Hk Htick) as [Hout1 Hp1].
  pose proof (quiet_run_keeps_probing c k (next_timer w)
                (deadline_timer (now w)) (reconnectDelay w) evs w1 w2 out2
                eq_refl Hp1 Hq Hrun) as Hp2.
  split; [exact Hout1|]. split; [apply Hp2|].
  intros w3 out3 Hfire.
  assert (Hd2 : reconnectDelay w2 = reconnectDelay w) by apply Hp2.
  rewrite <- Hd2 in Hp2.
  destruct (deadline_fires _ _ _ _ _ _ _ Hp2 Hfire)
    as (Hout3 & Hs3 & Hd3 & _ & _ & _).
  split; [exact Hout3|].
  intros w4 out4 Hclose.
  destruct (close_schedules_reconnect _ _ _ _ Hs3 Hclose)
    as (Hout4 & Ht4 & Hs4).
  split; [rewrite Hout4; congruence|].
  intros dt w5 out5 Hre.
  apply (reconnect_fires _ _ _ _ _ _ _ Hs4 Ht4 Hre).
Qed.

(** * Further properties of the listener *)

(** ** The reconnect delay *)

Lemma step_within_backoff w ev w' out :
  within_backoff (reconnectDelay w) ->
  step w ev = Some (w', out) ->
  within_backoff (reconnectDelay w')
  /\ Forall within_backoff (reconnects out).
Proof.
  unfold within_backoff. intros Hb H.
  destruct ev; cbn [step] in H; unfold on_socket in H.
  - destruct (Z.leb 0 dt); [|discriminate]. simplify_eq. cbn. auto.
  - destruct (timers w !! t) as [[k cb ms d]|]; [|discriminate].
    cbn [due callback] in H.
    destruct (Z.leb d (now w)); [|discriminate].
    destruct k, cb; mexec H; cbn; auto.
  - destruct (sockets w !! c); [|discriminate].
    mexec H; cbn; split; auto; lia.
  - destruct (sockets w !! c); [|discriminate].
    destruct data as [[v|e]|[v|e]|]; mexec H; cbn; auto.
  - destruct (sockets w !! c); [|discriminate]. mexec H; cbn; auto.
  - destruct (sockets w !! c); [|discriminate].
    mexec H; cbn; (split; [lia|]); repeat constructor; lia.
  - destruct (sockets w !! c); [|discriminate]. mexec H; cbn; auto.
  - mexec H; cbn; auto.
Qed.

Lemma reachable_within_backoff w :
  reachable w -> within_backoff (reconnectDelay w).
Proof.
  induction 1 as [|w ev w' out _ IH H].
  - unfold within_backoff. cbn. lia.
  - apply (step_within_backoff _ _ _ _ IH H).
Qed.

Lemma run_within_backoff evs : forall w w' out,
  within_backoff (reconnectDelay w) ->
  run w evs = Some (w', out) ->
  within_backoff (reconnectDelay w')
  /\ Forall within_backoff (reconnects out).
Proof.
  induction evs as [|ev evs IH]; intros w w' out Hb H; cbn [run] in H.
  - simplify_eq. split; [exact Hb|constructor].
  - destruct (step w ev) as [[w1 out1]|] eqn:E1; [|discriminate].
    destruct (run w1 evs) as [[w2 out2]|] eqn:E2; [|discriminate].
    simplify_eq.
    destruct (step_within_backoff _ _ _ _ Hb E1) as [Hb1 Ho1].
    destruct (IH _ _ _ Hb1 E2) as [Hb2 Ho2].
    split; [exact Hb2|].
    unfold reconnects. rewrite omap_app. apply Forall_app. split; assumption.
Qed.

(** X1.  The reconnect delay never leaves the interval from 1 s to
    30 s: it lies there in every state the listener can reach, and
    every reconnect scheduled in any run from such a state, stop calls
    and opens included, is scheduled with a delay in that interval. *)
Theorem X1_reconnect_delay_within_bounds w :
  reachable w ->
  within_backoff (reconnectDelay w)
  /\ forall evs w' out,
       run w evs = Some (w', out) ->
       within_backoff (reconnectDelay w')
       /\ Forall within_backoff (reconnects out).
Proof.
  intros Hr. pose proof (reachable_within_backoff _ Hr) as Hb.
  split; [exact Hb|]. intros evs w' out H.
  exact (run_within_backoff _ _ _ _ Hb H).
Qed.

(** ** What schedules a reconnect, what opens a socket *)

Lemma step_schedules w ev w' out :
  step w ev = Some (w', out) ->
  (is_close ev = false -> reconnects out = [])
  /\ (stopped w = true -> reconnects out = []).
Proof.
  intros H.
  destruct ev; cbn [step] in H; unfold on_socket in H.
  - destruct (Z.leb 0 dt); [|discriminate]. simplify_eq. auto.
  - destruct (timers w !! t) as [[k cb ms d]|]; [|discriminate].
    cbn [due callback] in H.
    destruct (Z.leb d (now w)); [|discriminate].
    destruct k, cb; mexec H; cbn; auto.
  - destruct (sockets w !! c); [|discriminate]. mexec H; cbn; auto.
  - destruct (sockets w !! c); [|discriminate].
    destruct data as [[v|e]|[v|e]|]; mexec H; cbn; auto.
  - destruct (sockets w !! c); [|discriminate]. mexec H; cbn; auto.
  - destruct (sockets w !! c); [|discriminate].
    destruct (stopped w) eqn:Hs; mexec H; cbn; split; intros; congruence.
  - destruct (sockets w !! c); [|discriminate]. mexec H; cbn; auto.
  - mexec H; cbn; auto.
Qed.

(** X2.  Only a close schedules a reconnect: an error report, a
    message, an open, a timer firing, a rejected upgrade or a call of
    [stop] schedules none, in any state; and a close after [stop]
    schedules none either. *)
Theorem X2_only_a_close_schedules_a_reconnect w ev w' out :
  step w ev = Some (w', out) ->
  (is_close ev = false -> reconnects out = [])
  /\ (stopped w = true -> reconnects out = []).
Proof. apply step_schedules. Qed.

(** X3.  Once the listener is created, a socket is opened only by a
    reconnect timer firing while [stop] has not been called; it is
    then exactly one socket, to
    [args.rpcUrl], it becomes the current one, it is connecting, and
    its subscription identifier is [undefined] whatever the previous
    socket had learnt. *)
Theorem X3_only_a_reconnect_opens_a_socket w ev w' out :
  step w ev = Some (w', out) ->
  connection_attempts out <> [] ->
  stopped w = false
  /\ (exists t tm, ev = TimerFires t /\ timers w !! t = Some tm
                   /\ callback tm = connect_cb)
  /\ connection_attempts out
     = [ENewWebSocket (next_socket w) (Args.rpcUrl args)]
  /\ ws w' = Some (next_socket w)
  /\ readyState_of (next_socket w) w' = CONNECTING
  /\ subscriptionId_of (next_socket w) w' = Undefined.
Proof.
  intros H Hne.
  destruct ev; cbn [step] in H; unfold on_socket in H.
  - destruct (Z.leb 0 dt); [|discriminate]. simplify_eq.
  - destruct (timers w !! t) as [[k cb ms d]|] eqn:Et; [|discriminate].
    cbn [due callback] in H.
    destruct (Z.leb d (now w)); [|discriminate].
    destruct k, cb; mexec H; try (cbn in Hne; now destruct Hne).
    all: unfold readyState_of, subscriptionId_of; cbn;
      rewrite lookup_insert_eq; repeat split; eauto.
  - destruct (sockets w !! c); [|discriminate].
    mexec H; try (cbn in Hne; now destruct Hne).
  - destruct (sockets w !! c); [|discriminate].
    destruct data as [[v|e]|[v|e]|]; mexec H; try (cbn in Hne; now destruct Hne).
  - destruct (sockets w !! c); [|discriminate].
    mexec H; try (cbn in Hne; now destruct Hne).
  - destruct (sockets w !! c); [|discriminate].
    mexec H; try (cbn in Hne; now destruct Hne).
  - destruct (sockets w !! c); [|discriminate].
    mexec H; try (cbn in Hne; now destruct Hne).
  - mexec H; try (cbn in Hne; now destruct Hne).
Qed.

(** ** [stop] *)

Lemma run_stopped_no_reconnect evs : forall w w' out,
  stopped w = true -> run w evs = Some (w', out) -> reconnects out = [].
Proof.
  induction evs as [|ev evs IH]; intros w w' out Hs H; cbn [run] in H.
  - now simplify_eq.
  - destruct (step w ev) as [[w1 out1]|] eqn:E1; [|discriminate].
    destruct (run w1 evs) as [[w2 out2]|] eqn:E2; [|discriminate].
    simplify_eq.
    destruct (step_stopped _ _ _ _ Hs E1) as [Hs1 _].
    destruct (step_schedules _ _ _ _ E1) as [_ Ho1].
    unfold reconnects. rewrite omap_app. fold (reconnects out1).
    fold (reconnects out2). rewrite (Ho1 Hs), (IH _ _ _ Hs1 E2). reflexivity.
Qed.

Lemma world_eq w w' :
  ws w = ws w' -> pingTimeout w = pingTimeout w' ->
  keepAliveInterval w = keepAliveInterval w' -> stopped w = stopped w' ->
  reconnectDelay w = reconnectDelay w' -> now w = now w' ->
  sockets w = sockets w' -> timers w = timers w' ->
  next_socket w = next_socket w' -> next_timer w = next_timer w' ->
  w = w'.
Proof. destruct w, w'. cbn. intros. subst. reflexivity. Qed.

Ltac solve_deletes :=
  apply map_eq; intros ?;
  repeat (rewrite lookup_delete; case_decide); congruence.

(** X4.  [stop] is idempotent: a second call changes nothing in the
    state the first one left, asks no socket to close and opens
    none. *)
Theorem X4_stop_is_idempotent w w1 out1 w2 out2 :
  step w StopCalled = Some (w1, out1) ->
  step w1 StopCalled = Some (w2, out2) ->
  w2 = w1 /\ close_requests out2 = [] /\ connection_attempts out2 = [].
Proof.
  intros H1 H2. cbn [step] in H1, H2.
  mexec H1; mexec H2; cbn; (split; [|split; reflexivity]);
    apply world_eq; cbn; try reflexivity; solve_deletes.
Qed.

Lemma closing_is_not_open c x :
  readyState_of c (update_socket c start_closing x) <> OPEN.
Proof.
  unfold readyState_of, update_socket, start_closing. cbn.
  rewrite lookup_alter_eq.
  destruct (sockets x !! c) as [[[] sid]|]; cbn; discriminate.
Qed.

Lemma stop_result w w1 out1 :
  step w StopCalled = Some (w1, out1) ->
  stopped w1 = true /\ ws w1 = None /\ next_timer w1 = next_timer w
  /\ (forall k, keepAliveInterval w = Some k -> timers w1 !! k = None)
  /\ (forall t, pingTimeout w = Some t -> timers w1 !! t = None)
  /\ close_requests out1
     = match ws w with Some c => [EClose c] | None => [] end
  /\ (forall c, ws w = Some c -> readyState_of c w1 <> OPEN).
Proof.
  intros H. cbn [step] in H.
  destruct (ws w) as [c|] eqn:Hws;
    destruct (keepAliveInterval w) as [k|] eqn:Hk;
    destruct (pingTimeout w) as [t|] eqn:Ht;
    mexec H; unfold disarm; cbn;
    repeat split; try discriminate;
    try (intros ? E; simplify_eq);
    try apply closing_is_not_open;
    try apply lookup_delete_eq.
  all: try match goal with
       | |- delete ?a _ !! ?b = None =>
           destruct (decide (a = b)) as [->|];
           [apply lookup_delete_eq
           |rewrite lookup_delete_ne by assumption; apply lookup_delete_eq]
       end.
  all: assumption.
Qed.

Lemma close_when_stopped w c w2 out2 :
  stopped w = true ->
  step w (Closes c) = Some (w2, out2) ->
  reconnects out2 = [] /\ next_timer w2 = next_timer w
  /\ readyState_of c w2 = CLOSED /\ ws w2 = None /\ stopped w2 = true.
Proof.
  intros Hs H. cbn [step] in H. unfold on_socket in H.
  destruct (sockets w !! c) as [s|] eqn:Hc; [|discriminate].
  mexec H; unfold readyState_of, disarm, update_socket; cbn;
    rewrite lookup_alter_eq, Hc; repeat split; assumption.
Qed.

(** X5.  [stop] with a live connection: the flag is set, the current
    socket is asked to close, exactly once, and forgotten; the timers
    [keepAliveInterval] and [pingTimeout] hold are cleared; and the
    close that follows schedules no reconnect and arms no timer. *)
Theorem X5_stop_closes_the_connection_for_good w c w1 out1 :
  ws w = Some c ->
  step w StopCalled = Some (w1, out1) ->
  close_requests out1 = [EClose c]
  /\ stopped w1 = true /\ ws w1 = None
  /\ readyState_of c w1 <> OPEN
  /\ (forall k, keepAliveInterval w = Some k -> timers w1 !! k = None)
  /\ (forall t, pingTimeout w = Some t -> timers w1 !! t = None)
  /\ forall w2 out2,
       step w1 (Closes c) = Some (w2, out2) ->
       reconnects out2 = [] /\ next_timer w2 = next_timer w
       /\ readyState_of c w2 = CLOSED.
Proof.
  intros Hws H1.
  destruct (stop_result _ _ _ H1) as (Hs & Hw1 & Hn & Hk & Ht & Hc & Hr).
  rewrite Hws in Hc.
  repeat split; auto.
  all: destruct (close_when_stopped _ _ _ _ Hs H) as (R1 & R2 & R3 & _);
    congruence.
Qed.

Lemma unexpected_response_stops w c w1 out1 :
  step w (UnexpectedResponse c) = Some (w1, out1) ->
  stopped w1 = true /\ connection_attempts out1 = []
  /\ reconnects out1 = []
  /\ close_requests out1
     = match ws w with Some c' => [EClose c'] | None => [] end.
Proof.
  intros H. cbn [step] in H. unfold on_socket in H.
  destruct (sockets w !! c); [|discriminate].
  destruct (ws w) eqn:Hws; mexec H; repeat split; reflexivity.
Qed.

(** X6.  A rejected upgrade is final: the [unexpected-response]
    handler logs, sets the stopped flag and asks the current socket,
    if any, to close; in no run of events after it is a reconnect
    scheduled or a socket opened. *)
Theorem X6_unexpected_response_is_final w c evs w' out :
  run w (UnexpectedResponse c :: evs) = Some (w', out) ->
  stopped w' = true
  /\ connection_attempts out = []
  /\ reconnects out = []
  /\ exists out1 out2,
       out = out1 ++ out2
       /\ close_requests out1
          = match ws w with Some c' => [EClose c'] | None => [] end.
Proof.
  intros H. cbn [run] in H.
  destruct (step w (UnexpectedResponse c)) as [[w1 out1]|] eqn:E1;
    [|discriminate].
  destruct (run w1 evs) as [[w2 out2]|] eqn:E2; [|discriminate].
  simplify_eq.
  destruct (unexpected_response_stops _ _ _ _ E1) as (Hs1 & Ha1 & Hr1 & Hc1).
  destruct (run_stopped _ _ _ _ Hs1 E2) as [Hs2 Ha2].
  pose proof (run_stopped_no_reconnect _ _ _ _ Hs1 E2) as Hr2.
  split; [exact Hs2|]. split; [|split].
  - unfold connection_attempts in *. rewrite List.filter_app, Ha1, Ha2.
    reflexivity.
  - unfold reconnects in *. rewrite omap_app, Hr1, Hr2. reflexivity.
  - exists out1, out2. split; [reflexivity|exact Hc1].
Qed.

(** ** Opening *)

(** X7.  When a socket opens, the reconnect delay is back at 1 s in
    every case.  With a current socket, the subscribe request is sent
    on it and the keep-alive interval is armed and remembered, with
    the configured period, or 60 s when none or 0 is configured.
    Without one ([ws] is null), sending throws a [TypeError] that
    nothing catches, and no interval is armed. *)
Theorem X7_open_subscribes_and_arms_keep_alive w c0 w' out :
  step w (Opens c0) = Some (w', out) ->
  reconnectDelay w' = 1000
  /\ readyState_of c0 w' = OPEN
  /\ match ws w with
     | Some c =>
         out = [ELog LInfo "WebSocket connection opened." [];
                ESend c request;
                ESetInterval (next_timer w) keepAlive_cb keep_alive_interval]
         /\ keepAliveInterval w' = Some (next_timer w)
         /\ timers w' !! next_timer w = Some (interval_timer (now w))
     | None =>
         out = [ELog LInfo "WebSocket connection opened." [];
                EUncaught TypeError]
         /\ keepAliveInterval w' = keepAliveInterval w
         /\ timers w' = timers w
     end
  /\ (Args.keepAliveCheckInterval args = None
      \/ Args.keepAliveCheckInterval args = Some 0 ->
      keep_alive_interval = 60000)
  /\ (forall n, Args.keepAliveCheckInterval args = Some n -> n <> 0 ->
      keep_alive_interval = n).
Proof.
  intros H. cbn [step] in H. unfold on_socket in H.
  destruct (sockets w !! c0) as [s|] eqn:Hc; [|discriminate].
  assert (Hopen : forall x, sockets x = alter (set_readyState OPEN) c0 (sockets w) ->
                            readyState_of c0 x = OPEN).
  { intros x E. unfold readyState_of. rewrite E, lookup_alter_eq, Hc.
    reflexivity. }
  split; [|split; [|split; [|split]]].
  - destruct (ws w) eqn:Hws; mexec H; reflexivity.
  - destruct (ws w) eqn:Hws; mexec H; apply Hopen; reflexivity.
  - destruct (ws w) eqn:Hws; mexec H; repeat split.
    unfold arm. cbn. apply lookup_insert_eq.
  - unfold keep_alive_interval, or_default. intros [-> | ->]; reflexivity.
  - unfold keep_alive_interval, or_default. intros n -> Hn.
    destruct (Z.eqb_spec n 0); [contradiction|reflexivity].
Qed.

(** ** The liveness monitor without a live connection *)

(** X8.  A keep-alive tick sends no probe and arms no deadline unless
    there is a current socket and it is open.  A deadline that fires
    when there is no current socket does nothing; one that fires when
    there is one terminates it, whichever connection the deadline was
    armed for. *)
Theorem X8_liveness_acts_on_the_current_socket_only w t tm w' out :
  timers w !! t = Some tm ->
  step w (TimerFires t) = Some (w', out) ->
  (callback tm = keepAlive_cb ->
   (forall c, ws w = Some c -> readyState_of c w <> OPEN) ->
   out = [] /\ pingTimeout w' = pingTimeout w
   /\ next_timer w' = next_timer w)
  /\ (callback tm = pingTimeout_cb -> ws w = None ->
      out = [] /\ sockets w' = sockets w)
  /\ (callback tm = pingTimeout_cb -> forall c, ws w = Some c ->
      out = [ELog LWarn "Ping timeout, terminating WebSocket connection." [];
             ETerminate c]
      /\ readyState_of c w' <> OPEN).
Proof.
  intros Et H. cbn [step] in H. rewrite Et in H.
  destruct (Z.leb (due tm) (now w)); [|discriminate].
  split; [|split].
  - intros Hcb Hno. rewrite Hcb in H.
    destruct (ws w) as [c|] eqn:Hws.
    + specialize (Hno c eq_refl). unfold readyState_of in Hno.
      destruct (sockets w !! c) as [[[] sid]|] eqn:Hc; cbn in Hno;
        try contradiction; mexec H; repeat split.
    + mexec H; repeat split.
  - intros Hcb Hws. rewrite Hcb in H. mexec H; repeat split.
  - intros Hcb c Hws. rewrite Hcb in H.
    assert (E : out = [ELog LWarn "Ping timeout, terminating WebSocket connection." [];
                       ETerminate c]
                /\ exists x, w' = update_socket c start_closing x).
    { mexec H; (split; [reflexivity|]); eexists; reflexivity. }
    destruct E as [-> [x ->]]. split; [reflexivity|].
    apply closing_is_not_open.
Qed.

(** ** Closing *)

(** X9.  After a close, in any reachable state, the current socket is
    forgotten, the closed socket is marked closed, and the timers the
    listener holds for keep-alive and for the probe deadline are no
    longer pending: the old interval sends no further probe. *)
Theorem X9_close_clears_the_liveness_timers w c w' out :
  reachable w ->
  step w (Closes c) = Some (w', out) ->
  ws w' = None
  /\ readyState_of c w' = CLOSED
  /\ (forall k, keepAliveInterval w = Some k -> timers w' !! k = None)
  /\ (forall t, pingTimeout w = Some t -> timers w' !! t = None).
Proof.
  intros Hr H.
  pose proof (reachable_handles_typed _ Hr) as (_ & Hp & Ha).
  cbn [step] in H. unfold on_socket in H.
  destruct (sockets w !! c) as [s|] eqn:Hc; [|discriminate].
  destruct (keepAliveInterval w) as [k|] eqn:Hk;
    destruct (pingTimeout w) as [t|] eqn:Ht;
    try (destruct (Ha _ eq_refl) as [Hklt _]);
    try (destruct (Hp _ eq_refl) as [Htlt _]);
    clear Ha Hp Hr;
    mexec H; unfold readyState_of, arm, disarm, update_socket; cbn;
    rewrite ?lookup_alter_eq, ?Hc; repeat split; try discriminate;
    try (intros ? E; simplify_eq);
    rewrite ?lookup_insert_ne by lia;
    try apply lookup_delete_eq.
  all: match goal with
       | |- delete ?a _ !! ?b = None =>
           destruct (decide (a = b)) as [->|];
           [apply lookup_delete_eq
           |rewrite lookup_delete_ne by assumption; apply lookup_delete_eq]
       end.
Qed.

(** ** Messages *)

Lemma dispatch_conditions c v w :
  dispatch c v w
  = (if is_handshake_response v then
       let* result := lift (get v "result") in
       modify (update_socket c (set_subscriptionId result)) >>
       lift (to_string result) >>
       log LInfo "Subscription to event '${args.eventName}' established with ID '${parsedData.result}'." []
     else if is_probe_response v then
       log LDebug "Health check successful." [] >>
       let* pending := gets pingTimeout in
       match pending with
       | Some t => clearTimeout t >> modify (set_pingTimeout None)
       | None => skip
       end
     else if is_notification v then
       let* params := lift (get v "params") in
       let* subscription := lift (get params "subscription") in
       let* known := gets (subscriptionId_of c) in
       if strict_eq subscription known then
         let* logData := lift (get params "result") in
         let* eventLog := lift (parseLog logData) in
         log LInfo "Received event ${eventLog?.name}:" [eventLog_args eventLog] >>
         call_callback eventLog
       else skip
     else skip) w.
Proof. reflexivity. Qed.

(** X10.  A probe response (identifier 2, result exactly [true])
    cancels the deadline [pingTimeout] holds and clears the variable;
    every other timer, an older deadline included, stays as it was.
    Nothing is terminated and the current socket is kept.  With no
    deadline held the response is only logged. *)
Theorem X10_probe_response_cancels_the_held_deadline_only w c data v :
  parsed data = Some v ->
  is_handshake_response v = false -> is_probe_response v = true ->
  exists w' out,
    onmessage c data w = (Normal tt, w', out)
    /\ pingTimeout w' = None /\ ws w' = ws w /\ sockets w' = sockets w
    /\ terminations out = []
    /\ (forall t, pingTimeout w = Some t ->
        timers w' !! t = None
        /\ out = [ELog LDebug "Health check successful." []; EClearTimeout t])
    /\ (pingTimeout w = None ->
        w' = w /\ out = [ELog LDebug "Health check successful." []])
    /\ (forall t', pingTimeout w <> Some t' ->
        timers w' !! t' = timers w !! t').
Proof.
  intros Hp Hh Hr.
  rewrite (onmessage_parsed _ _ _ _ Hp), dispatch_conditions, Hh, Hr.
  destruct (pingTimeout w) as [t|] eqn:Ht; msimpl; do 2 eexists;
    (split; [reflexivity|]); cbn.
  - repeat split; try discriminate.
    + simplify_eq. apply lookup_delete_eq.
    + now simplify_eq.
    + intros t' Hne. apply lookup_delete_ne. congruence.
  - repeat split; try discriminate; try assumption.
Qed.

(** X11.  A notification whose [params.subscription] is strictly equal
    to the stored identifier and whose log [parseLog] decodes is
    logged and reaches the callback exactly once, with the decoded
    event.  The handler completes as that call does: it returns when
    the callback returns, and what the callback throws leaves the
    handler uncaught.  Either way the state of the listener is
    unchanged.  Without a callback the event is only logged. *)
Theorem X11_decoded_event_reaches_the_callback_once
    w c data v params subscription logData d :
  parsed data = Some v ->
  is_handshake_response v = false ->
  is_probe_response v = false ->
  is_notification v = true ->
  get v "params" = Normal params ->
  get params "subscription" = Normal subscription ->
  strict_eq subscription (subscriptionId_of c w) = true ->
  get params "result" = Normal logData ->
  parseLog logData = Normal (Some d) ->
  onmessage c data w
  = (callback_outcome (Some d), w,
     ELog LInfo "Received event ${eventLog?.name}:" [LogDescription.args d]
     :: match Args.callback args with
        | Some f => [ECallback f (Some d)]
        | None => []
        end)
  /\ callback_calls (snd (onmessage c data w))
     = match Args.callback args with Some _ => [Some d] | None => [] end
  /\ forall s, sockets w !! c = Some s ->
       exists out,
         step w (Message c data) = Some (w, out)
         /\ uncaught out = escaping (callback_outcome (Some d)).
Proof.
  intros Hp Hh Hr Hn Hg1 Hg2 Heq Hg3 Hdec.
  pose proof (decoded_runs _ _ _ _ _ _ w Hh Hr Hn Hg1 Hg2 Heq Hg3 Hdec) as E.
  rewrite <- (onmessage_parsed _ _ _ _ Hp) in E. cbn [eventLog_args] in E.
  split; [exact E|]. split.
  - rewrite E. destruct (Args.callback args); reflexivity.
  - intros s Hs. eexists.
    split; [exact (deliver_message _ _ _ _ _ _ _ Hs E)|].
    destruct (callback_outcome (Some d)) as [[]|e];
      destruct (Args.callback args); reflexivity.
Qed.

(** X12.  When [parseLog] throws on the log of a matching
    notification, the exception leaves [ws.onmessage] uncaught: the
    callback is not called, nothing is logged and the state is
    unchanged. *)
Theorem X12_decoder_exception_escapes w c data v params subscription logData e :
  parsed data = Some v ->
  is_handshake_response v = false ->
  is_probe_response v = false ->
  is_notification v = true ->
  get v "params" = Normal params ->
  get params "subscription" = Normal subscription ->
  strict_eq subscription (subscriptionId_of c w) = true ->
  get params "result" = Normal logData ->
  parseLog logData = Throw e ->
  onmessage c data w = (Throw e, w, [])
  /\ forall s, sockets w !! c = Some s ->
       step w (Message c data) = Some (w, [EUncaught e]).
Proof.
  intros Hp Hh Hr Hn Hg1 Hg2 Heq Hg3 Hdec.
  assert (E : onmessage c data w = (Throw e, w, [])).
  { rewrite (onmessage_parsed _ _ _ _ Hp), dispatch_conditions, Hh, Hr, Hn.
    mstep. rewrite Hg1. cbn. rewrite Hg2. cbn.
    rewrite Heq, Hg3. cbn. rewrite Hdec. reflexivity. }
  split; [exact E|]. intros s Hs.
  rewrite (deliver_message _ _ _ _ _ _ _ Hs E). reflexivity.
Qed.

Lemma not_object_unclassified v :
  is_object v = false ->
  is_handshake_response v = false /\ is_probe_response v = false
  /\ is_notification v = false.
Proof.
  unfold is_handshake_response, is_probe_response, is_notification.
  destruct v; try discriminate; intros _; repeat split.
Qed.

(** X13.  A parsed message that is no subscribe response, no probe
    response and no notification is dropped in silence: the handler
    returns normally, logs nothing and changes nothing.  This is the
    fate of every frame that parses to something other than an object
    ([null], a number, a string, an array), and of a response with the
    probe's identifier whose result is truthy without being [true]. *)
Theorem X13_unclassified_message_is_dropped_silently w c data v :
  parsed data = Some v ->
  (is_handshake_response v = false /\ is_probe_response v = false
   /\ is_notification v = false
   \/ is_object v = false) ->
  onmessage c data w = (Normal tt, w, []).
Proof.
  intros Hp H.
  assert (Hc : is_handshake_response v = false /\ is_probe_response v = false
               /\ is_notification v = false).
  { destruct H as [H|Ho]; [exact H|now apply not_object_unclassified]. }
  destruct Hc as (Hh & Hr & Hn).
  rewrite (onmessage_parsed _ _ _ _ Hp), dispatch_conditions, Hh, Hr, Hn.
  reflexivity.
Qed.

(** X14.  A subscribe response on socket [c] sets the subscription
    identifier of [c] and of no other socket, and changes nothing else
    of the socket table: a late response on an old socket cannot
    change what the current socket matches notifications against. *)
Theorem X14_subscription_identifier_is_per_socket w c s data v w' out :
  sockets w !! c = Some s ->
  parsed data = Some v -> is_handshake_response v = true ->
  step w (Message c data) = Some (w', out) ->
  subscriptionId_of c w' = opt_get v "result"
  /\ readyState_of c w' = readyState_of c w
  /\ forall c', c' <> c -> sockets w' !! c' = sockets w !! c'.
Proof.
  intros Hs Hp Hh H.
  pose proof (handshake_runs c v w Hh) as E.
  rewrite <- (onmessage_parsed _ _ _ _ Hp) in E.
  destruct (to_string (opt_get v "result")) as [[]|e];
    rewrite (deliver_message _ _ _ _ _ _ _ Hs E) in H; simplify_eq.
  all: unfold subscriptionId_of, readyState_of, update_socket; cbn.
  all: rewrite lookup_alter_eq, Hs; cbn; repeat split.
  all: intros c' Hne; apply lookup_alter_ne; congruence.
Qed.


(** ** Subscribing, receiving, reconnecting *)

Lemma primitive_equals_itself v : is_primitive v = true -> strict_eq v v = true.
Proof.
  destruct v as [| |b|n|s| | | |]; try discriminate; intros _; cbn.
  - reflexivity.
  - reflexivity.
  - now destruct b.
  - apply Z.eqb_refl.
  - apply String.eqb_refl.
Qed.

(** X15.  Subscribing and receiving compose: on a socket that gets the
    subscribe response with a primitive identifier (a string, as nodes
    send) and then a notification carrying that identifier and a log
    [parseLog] decodes, the identifier is stored and the callback is
    called exactly once, with the decoded event.  The only exception
    that can leave a handler in this run is one the callback throws. *)
Theorem X15_subscribe_then_receive w c s identifier logData d :
  sockets w !! c = Some s ->
  is_primitive identifier = true ->
  parseLog logData = Normal (Some d) ->
  exists w' out,
    run w [Message c (subscribed identifier);
           Message c (notification identifier logData)] = Some (w', out)
    /\ subscriptionId_of c w' = identifier
    /\ uncaught out = escaping (callback_outcome (Some d))
    /\ callback_calls out
       = match Args.callback args with Some _ => [Some d] | None => [] end.
Proof.
  intros Hs Hprim Hdec.
  set (w1 := update_socket c (set_subscriptionId identifier) w).
  assert (Hid : subscriptionId_of c w1 = identifier).
  { unfold subscriptionId_of, w1, update_socket. cbn.
    rewrite lookup_alter_eq, Hs. reflexivity. }
  assert (Hs1 : sockets w1 !! c = Some (set_subscriptionId identifier s)).
  { unfold w1, update_socket. cbn. rewrite lookup_alter_eq, Hs. reflexivity. }
  assert (E1 : onmessage c (subscribed identifier) w
               = (Normal tt, w1,
                  [ELog LInfo "Subscription to event '${args.eventName}' established with ID '${parsedData.result}'." []])).
  { unfold subscribed, onmessage. rewrite handshake_runs by reflexivity.
    change (opt_get _ "result") with identifier.
    rewrite (primitive_to_string _ Hprim). reflexivity. }
  assert (E2 : onmessage c (notification identifier logData) w1
               = (callback_outcome (Some d), w1,
                  ELog LInfo "Received event ${eventLog?.name}:"
                    [LogDescription.args d]
                  :: match Args.callback args with
                     | Some f => [ECallback f (Some d)]
                     | None => []
                     end)).
  { unfold notification, onmessage.
    apply (decoded_runs c _ (Obj [("subscription", identifier);
                                  ("result", logData)])
             identifier logData (Some d) w1);
      first [reflexivity | exact Hdec
            | rewrite Hid; exact (primitive_equals_itself _ Hprim)]. }
  do 2 eexists. split.
  - cbn [run]. rewrite (deliver_message _ _ _ _ _ _ _ Hs E1).
    rewrite (deliver_message _ _ _ _ _ _ _ Hs1 E2). reflexivity.
  - split; [exact Hid|].
    destruct (callback_outcome (Some d)) as [[]|e];
      destruct (Args.callback args); split; reflexivity.
Qed.

Lemma close_then_reconnect_state c w w1 out1 :
  stopped w = false ->
  step w (Closes c) = Some (w1, out1) ->
  reconnects out1 = [reconnectDelay w]
  /\ connection_attempts out1 = [] /\ sends out1 = []
  /\ stopped w1 = false
  /\ timers w1 !! next_timer w
     = Some (reconnect_timer (now w) (reconnectDelay w))
  /\ next_socket w1 = next_socket w
  /\ next_timer w1 = S (next_timer w)
  /\ now w1 = now w.
Proof.
  intros Hs H. cbn [step] in H. unfold on_socket in H.
  destruct (sockets w !! c); [|discriminate].
  mexec H; unfold arm, disarm, reconnect_timer; cbn;
    repeat split; try assumption; apply lookup_insert_eq.
Qed.

Lemma reconnect_state t at_ d w w' out :
  stopped w = false ->
  timers w !! t = Some (reconnect_timer at_ d) ->
  step w (TimerFires t) = Some (w', out) ->
  connection_attempts out = [ENewWebSocket (next_socket w) (Args.rpcUrl args)]
  /\ reconnects out = [] /\ sends out = []
  /\ ws w' = Some (next_socket w)
  /\ sockets w' !! next_socket w
     = Some {| readyState := CONNECTING; subscriptionId := Undefined |}
  /\ next_timer w' = next_timer w
  /\ now w' = now w.
Proof.
  intros Hs Ht H. cbn [step] in H. rewrite Ht in H.
  cbn [due callback reconnect_timer] in H.
  destruct (Z.leb _ _); [|discriminate].
  mexec H. cbn. rewrite lookup_insert_eq. repeat split.
Qed.

Lemma open_state c w w' out :
  ws w = Some c ->
  sockets w !! c = Some {| readyState := CONNECTING; subscriptionId := Undefined |} ->
  step w (Opens c) = Some (w', out) ->
  out = [ELog LInfo "WebSocket connection opened." [];
         ESend c request;
         ESetInterval (next_timer w) keepAlive_cb keep_alive_interval]
  /\ reconnectDelay w' = 1000
  /\ ws w' = Some c
  /\ sockets w' !! c
     = Some {| readyState := OPEN; subscriptionId := Undefined |}
  /\ keepAliveInterval w' = Some (next_timer w)
  /\ timers w' !! next_timer w = Some (interval_timer (now w)).
Proof.
  intros Hws Hc H. cbn [step] in H. unfold on_socket in H. rewrite Hc in H.
  mexec H. unfold arm, update_socket. cbn.
  rewrite lookup_alter_eq, Hc, lookup_insert_eq. repeat split; assumption.
Qed.

(** X16.  The listener heals itself: when a connection closes while
    [stop] has not been called, the one reconnect it schedules opens
    one new socket, which becomes the current one with no subscription
    identifier; when that socket opens, the subscribe request is sent
    on it, the reconnect delay is back at 1 s, and a new keep-alive
    interval is armed. *)
Theorem X16_reconnect_subscribes_again w c dt w' out :
  stopped w = false ->
  run w [Closes c; Elapse dt; TimerFires (next_timer w);
         Opens (next_socket w)] = Some (w', out) ->
  reconnects out = [reconnectDelay w]
  /\ connection_attempts out
     = [ENewWebSocket (next_socket w) (Args.rpcUrl args)]
  /\ sends out = [ESend (next_socket w) request]
  /\ ws w' = Some (next_socket w)
  /\ readyState_of (next_socket w) w' = OPEN
  /\ subscriptionId_of (next_socket w) w' = Undefined
  /\ reconnectDelay w' = 1000
  /\ keepAliveInterval w' = Some (S (next_timer w))
  /\ timers w' !! S (next_timer w) = Some (interval_timer (now w + dt)).
Proof.
  intros Hs H. cbn [run] in H.
  destruct (step w (Closes c)) as [[w1 out1]|] eqn:E1; [|discriminate].
  destruct (step w1 (Elapse dt)) as [[w2 out2]|] eqn:E2; [|discriminate].
  destruct (step w2 (TimerFires (next_timer w))) as [[w3 out3]|] eqn:E3;
    [|discriminate].
  destruct (step w3 (Opens (next_socket w))) as [[w4 out4]|] eqn:E4;
    [|discriminate].
  simplify_eq.
  destruct (close_then_reconnect_state _ _ _ _ Hs E1)
    as (R1 & A1 & S1 & Hs1 & T1 & Ns1 & Nt1 & Now1).
  cbn [step] in E2. destruct (Z.leb 0 dt); [|discriminate]. simplify_eq.
  assert (T2 : timers (set_now (now w1 + dt) w1) !! next_timer w
               = Some (reconnect_timer (now w) (reconnectDelay w)))
    by exact T1.
  destruct (reconnect_state (next_timer w) _ _ (set_now (now w1 + dt) w1)
              _ _ Hs1 T2 E3)
    as (A3 & R3 & S3 & Hws3 & Hc3 & Nt3 & Now3).
  cbn in A3, Hws3, Hc3, Nt3, Now3. rewrite Ns1 in A3, Hws3, Hc3.
  destruct (open_state _ _ _ _ Hws3 Hc3 E4)
    as (O4 & D4 & Hws4 & Hc4 & K4 & T4).
  unfold reconnects, connection_attempts, sends in *.
  rewrite !omap_app, !List.filter_app, R1, R3, A1, A3, S1, S3, O4. cbn.
  unfold readyState_of, subscriptionId_of. rewrite Hc4. cbn.
  rewrite Nt3, Nt1 in K4, T4. rewrite Now3, Now1 in T4.
  repeat split; assumption.
Qed.

(** ** The caller in index.ts *)

Lemma index_callbacks_lines stringify calls : forall p,
  events (index_callbacks stringify calls p)
  = events p ++ omap (event_line stringify) calls
  /\ console (index_callbacks stringify calls p)
     = console p ++ omap (event_line stringify) calls.
Proof.
  induction calls as [|event calls IH]; intros p; cbn.
  - now rewrite !app_nil_r.
  - destruct (IH (snd (index_callback stringify event p))) as [IHe IHc].
    unfold index_callbacks in *. rewrite IHe, IHc.
    unfold index_callback, event_line.
    destruct event as [ev|]; [|split; reflexivity].
    destruct (stringify (LogDescription.args ev)); cbn;
      [|split; reflexivity].
    rewrite <- !app_assoc. split; reflexivity.
Qed.

Lemma omap_no_longer {A B} (f : A -> option B) (l : list A) :
  (length (omap f l) <= length l)%nat.
Proof.
  induction l as [|x l IH]; cbn; [lia|]. destruct (f x); cbn; lia.
Qed.

(** X17.  What [GET /events] returns after any series of callback
    calls is what it returned before followed by one line per decoded
    event whose arguments [JSON.stringify] serialises, in the order of
    the calls; the same lines go to the console.  A [null] event
    leaves no line, and neither does an event on which
    [JSON.stringify] throws: that call throws and pushes nothing.  The
    array is never shortened. *)
Theorem X17_events_page_lists_the_decoded_events stringify calls p :
  get_events (index_callbacks stringify calls p)
  = get_events p ++ omap (event_line stringify) calls
  /\ console (index_callbacks stringify calls p)
     = console p ++ omap (event_line stringify) calls
  /\ (length (get_events p)
      <= length (get_events (index_callbacks stringify calls p))
      <= length (get_events p) + length calls)%nat
  /\ index_callback stringify None p = (Normal tt, p)
  /\ (forall ev e, stringify (LogDescription.args ev) = Throw e ->
      index_callback stringify (Some ev) p = (Throw e, p)).
Proof.
  destruct (index_callbacks_lines stringify calls p) as [He Hc].
  unfold get_events. split; [exact He|]. split; [exact Hc|].
  split; [|split; [reflexivity|]].
  - rewrite He, length_app.
    pose proof (omap_no_longer (event_line stringify) calls). lia.
  - intros ev e E. unfold index_callback. rewrite E. reflexivity.
Qed.

(** ** One socket per close, at most *)

Lemma reconnects_in_delete_le i m :
  (reconnects_in (delete i m) <= reconnects_in m)%nat.
Proof.
  unfold reconnects_in. rewrite map_filter_delete, map_size_delete.
  destruct (_ !! i); cbn; lia.
Qed.

Lemma reconnects_in_delete_reconnect i tm m :
  m !! i = Some tm -> callback tm = connect_cb ->
  S (reconnects_in (delete i m)) = reconnects_in m.
Proof.
  intros Hi Hcb. unfold reconnects_in.
  rewrite map_filter_delete, map_size_delete.
  assert (E : filter (fun p : nat * Timer => callback (snd p) = connect_cb) m !! i
              = Some tm) by (apply map_lookup_filter_Some; auto).
  rewrite E. cbn.
  assert (size (filter (fun p : nat * Timer => callback (snd p) = connect_cb) m) <> 0%nat).
  { intros Hz. apply map_size_empty_inv in Hz. rewrite Hz in E.
    rewrite lookup_empty in E. discriminate. }
  lia.
Qed.

Lemma reconnects_in_insert_fresh i tm m :
  m !! i = None ->
  reconnects_in (<[i:=tm]> m)
  = (reconnects_in m
     + if decide (callback tm = connect_cb) then 1 else 0)%nat.
Proof.
  intros Hi. unfold reconnects_in. rewrite map_filter_insert. cbn.
  destruct (decide (callback tm = connect_cb)).
  - rewrite map_size_insert.
    assert (E : filter (fun p : nat * Timer => callback (snd p) = connect_cb) m !! i = None)
      by (apply map_lookup_filter_None; auto).
    rewrite E. cbn. lia.
  - rewrite delete_id by exact Hi. lia.
Qed.

Lemma reconnects_in_rearm i tm tm' m :
  m !! i = Some tm -> callback tm' = callback tm ->
  reconnects_in (<[i:=tm']> m) = reconnects_in m.
Proof.
  intros Hi Hcb. unfold reconnects_in. rewrite map_filter_insert. cbn.
  destruct (decide (callback tm' = connect_cb)) as [Hc|Hc].
  - rewrite map_size_insert.
    assert (E : filter (fun p : nat * Timer => callback (snd p) = connect_cb) m !! i
                = Some tm)
      by (apply map_lookup_filter_Some; split; [exact Hi|cbn; congruence]).
    rewrite E. reflexivity.
  - rewrite map_filter_delete, map_size_delete.
    assert (E : filter (fun p : nat * Timer => callback (snd p) = connect_cb) m !! i
                = None).
    { apply map_lookup_filter_None. right. intros x Hx. cbn.
      rewrite Hi in Hx. simplify_eq. congruence. }
    rewrite E. reflexivity.
Qed.

Lemma timers_tidy_same w w' :
  timers w' = timers w -> next_timer w' = next_timer w ->
  timers_tidy w -> timers_tidy w'.
Proof. unfold timers_tidy. intros E1 E2. rewrite E1, E2. exact (fun H => H). Qed.

Lemma timers_tidy_disarm t w : timers_tidy w -> timers_tidy (disarm t w).
Proof.
  intros Hw t' tm H. unfold disarm in H. cbn in H.
  apply lookup_delete_Some in H as [_ H]. exact (Hw _ _ H).
Qed.

Lemma timers_tidy_arm k cb ms w :
  (cb = connect_cb -> k = Timeout) ->
  timers_tidy w -> timers_tidy (arm k cb ms w).
Proof.
  intros Hk Hw t' tm H. unfold arm in H |- *. cbn in *.
  apply lookup_insert_Some in H as [[<- <-]|[_ H]]; cbn.
  - split; [lia|exact Hk].
  - destruct (Hw _ _ H). split; [lia|assumption].
Qed.

Lemma timers_tidy_fire t tm w :
  timers w !! t = Some tm -> timers_tidy w -> timers_tidy (fire t tm w).
Proof.
  intros Et Hw. unfold fire. destruct (kind tm) eqn:Hk.
  - now apply timers_tidy_disarm.
  - intros t' tm' H. cbn in *.
    apply lookup_insert_Some in H as [[<- <-]|[_ H]]; cbn.
    + destruct (Hw _ _ Et) as [Hlt Hc]. split; [exact Hlt|].
      intros Hcb. specialize (Hc Hcb). congruence.
    + exact (Hw _ _ H).
Qed.

Ltac solve_tidy :=
  repeat first
    [ assumption
    | apply timers_tidy_disarm
    | apply timers_tidy_arm; [try discriminate; reflexivity|]
    | match goal with
      | |- timers_tidy (?f _ ?w) =>
          apply (timers_tidy_same w); [reflexivity ..|]
      | |- timers_tidy (?f _ _ ?w) =>
          apply (timers_tidy_same w); [reflexivity ..|]
      end ].

Lemma step_timers_tidy w ev w' out :
  timers_tidy w -> step w ev = Some (w', out) -> timers_tidy w'.
Proof.
  intros Hw H.
  destruct ev; cbn [step] in H; unfold on_socket in H.
  - destruct (Z.leb 0 dt); [|discriminate]. simplify_eq.
    revert Hw. now apply timers_tidy_same.
  - destruct (timers w !! t) as [tm|] eqn:Et; [|discriminate].
    destruct (Z.leb (due tm) (now w)); [|discriminate].
    pose proof (timers_tidy_fire _ _ _ Et Hw) as Hf.
    remember (fire t tm w) as w0 eqn:Ew0. clear Ew0 Et Hw.
    destruct (callback tm); mexec H; solve_tidy.
  - destruct (sockets w !! c); [|discriminate]. mexec H; solve_tidy.
  - destruct (sockets w !! c); [|discriminate].
    destruct data as [[v|e]|[v|e]|]; mexec H; solve_tidy.
  - destruct (sockets w !! c); [|discriminate]. mexec H; solve_tidy.
  - destruct (sockets w !! c); [|discriminate]. mexec H; solve_tidy.
  - destruct (sockets w !! c); [|discriminate]. mexec H; solve_tidy.
  - mexec H; solve_tidy.
Qed.

Lemma created_timers_tidy : timers_tidy (fst resilientEventListener).
Proof. intros t tm H. cbn in H. rewrite lookup_empty in H. discriminate. Qed.

Lemma reachable_timers_tidy w : reachable w -> timers_tidy w.
Proof.
  induction 1 as [|w ev w' out _ IH H].
  - apply created_timers_tidy.
  - exact (step_timers_tidy _ _ _ _ IH H).
Qed.

(** Bounds every [reconnects_in (delete _ _)] of the goal from above
    and hands the arithmetic to [lia]. *)
Ltac count_reconnects :=
  unfold pending_reconnects, arm, disarm, update_socket; cbn;
  repeat match goal with
    | |- context [reconnects_in (<[?i:=?x]> ?m)] =>
        rewrite (reconnects_in_insert_fresh i x m)
          by (repeat (apply lookup_delete_None; right); assumption);
        cbn
    end;
  repeat (case_decide; try congruence);
  repeat match goal with
    | |- context [reconnects_in (delete ?i ?m)] =>
        lazymatch goal with
        | _ : (reconnects_in (delete i m) <= reconnects_in m)%nat |- _ => fail
        | _ => pose proof (reconnects_in_delete_le i m)
        end
    | _ : context [reconnects_in (delete ?i ?m)] |- _ =>
        lazymatch goal with
        | _ : (reconnects_in (delete i m) <= reconnects_in m)%nat |- _ => fail
        | _ => pose proof (reconnects_in_delete_le i m)
        end
    end;
  lia.

Lemma step_spends_a_reconnect w ev w' out :
  timers_tidy w -> step w ev = Some (w', out) ->
  (length (connection_attempts out) + pending_reconnects w'
   <= pending_reconnects w + length (reconnects out))%nat
  /\ (length (reconnects out) <= if is_close ev then 1 else 0)%nat.
Proof.
  intros Hw H.
  assert (Hfresh : timers w !! next_timer w = None).
  { destruct (timers w !! next_timer w) as [tm|] eqn:E; [|reflexivity].
    destruct (Hw _ _ E). lia. }
  destruct ev; cbn [step] in H; unfold on_socket in H.
  - destruct (Z.leb 0 dt); [|discriminate]. simplify_eq. cbn.
    unfold pending_reconnects. cbn. lia.
  - destruct (timers w !! t) as [[k cb ms d]|] eqn:Et; [|discriminate].
    cbn [due callback] in H.
    destruct (Z.leb d (now w)); [|discriminate].
    destruct (Hw _ _ Et) as [Hlt Hkind]. cbn in Hkind.
    assert (Hne : t <> next_timer w) by lia.
    destruct cb.
    + specialize (Hkind eq_refl). subst k.
      pose proof (reconnects_in_delete_reconnect _ _ _ Et eq_refl).
      mexec H; (split; [count_reconnects|cbn; lia]).
    + destruct k; mexec H; (split; [|cbn; lia]).
      all: try count_reconnects.
      all: unfold pending_reconnects, arm; cbn;
        rewrite ?reconnects_in_insert_fresh
          by (rewrite lookup_insert_ne by exact Hne; exact Hfresh);
        rewrite (reconnects_in_rearm _ _ _ _ Et) by reflexivity; cbn;
        repeat (case_decide; try congruence); lia.
    + destruct k; mexec H; (split; [|cbn; lia]).
      all: try count_reconnects.
      all: unfold pending_reconnects, update_socket; cbn;
        rewrite (reconnects_in_rearm _ _ _ _ Et) by reflexivity; cbn; lia.
  - destruct (sockets w !! c); [|discriminate].
    mexec H; (split; [count_reconnects|cbn; lia]).
  - destruct (sockets w !! c); [|discriminate].
    destruct data as [[v|e]|[v|e]|]; mexec H;
      (split; [count_reconnects|cbn; lia]).
  - destruct (sockets w !! c); [|discriminate].
    mexec H; (split; [count_reconnects|cbn; lia]).
  - destruct (sockets w !! c); [|discriminate].
    mexec H; (split; [count_reconnects|cbn; lia]).
  - destruct (sockets w !! c); [|discriminate].
    mexec H; (split; [count_reconnects|cbn; lia]).
  - mexec H; (split; [count_reconnects|cbn; lia]).
Qed.

Lemma run_spends_reconnects evs : forall w w' out,
  timers_tidy w -> run w evs = Some (w', out) ->
  (length (connection_attempts out) + pending_reconnects w'
   <= pending_reconnects w + length (reconnects out))%nat
  /\ (length (reconnects out) <= closes evs)%nat.
Proof.
  induction evs as [|ev evs IH]; intros w w' out Hw H; cbn [run] in H.
  - simplify_eq. cbn. unfold closes. cbn. lia.
  - destruct (step w ev) as [[w1 out1]|] eqn:E1; [|discriminate].
    destruct (run w1 evs) as [[w2 out2]|] eqn:E2; [|discriminate].
    simplify_eq.
    destruct (step_spends_a_reconnect _ _ _ _ Hw E1) as [H1 H1'].
    destruct (IH _ _ _ (step_timers_tidy _ _ _ _ Hw E1) E2) as [H2 H2'].
    unfold connection_attempts, reconnects, closes in *.
    rewrite List.filter_app, omap_app, !length_app.
    cbn [List.filter]. destruct (is_close ev); cbn [length]; lia.
Qed.

(** X18.  No reconnect storm: a socket is opened only by spending a
    scheduled reconnect, and a reconnect is scheduled only by a close.
    In any run from a reachable state, the sockets opened plus the
    reconnects still pending at the end are at most the reconnects
    pending at the start plus the closes of the run; from its creation
    on, a listener has opened at most one socket more than it has seen
    closes. *)
Theorem X18_at_most_one_socket_per_close :
  (forall w evs w' out,
     reachable w -> run w evs = Some (w', out) ->
     (length (connection_attempts out) + pending_reconnects w'
      <= pending_reconnects w + closes evs)%nat)
  /\ (forall evs w' out,
        run (fst resilientEventListener) evs = Some (w', out) ->
        (length (connection_attempts (snd resilientEventListener ++ out))
         <= 1 + closes evs)%nat).
Proof.
  split.
  - intros w evs w' out Hr H.
    destruct (run_spends_reconnects _ _ _ _ (reachable_timers_tidy _ Hr) H).
    lia.
  - intros evs w' out H.
    destruct (run_spends_reconnects _ _ _ _ created_timers_tidy H) as [H1 H2].
    assert (E0 : pending_reconnects (fst resilientEventListener) = 0%nat)
      by reflexivity.
    unfold connection_attempts in *. rewrite List.filter_app, length_app.
    change (length (List.filter is_connection_attempt
                      (snd resilientEventListener))) with 1%nat.
    lia.
Qed.

(** ** Probing *)

(** X19.  A keep-alive tick with an open current socket sends one
    probe on it and arms one new deadline, for the configured timeout
    (15 s when none or 0 is configured), which [pingTimeout] now
    holds.  It cancels nothing: every other timer, a deadline armed by
    an earlier tick included, is as it was, so two deadlines can be
    pending at once. *)
Theorem X19_tick_arms_a_deadline_and_cancels_none w c t tm w' out :
  reachable w ->
  timers w !! t = Some tm -> callback tm = keepAlive_cb ->
  ws w = Some c -> readyState_of c w = OPEN ->
  step w (TimerFires t) = Some (w', out) ->
  out = [ELog LDebug "Performing health check for subscription to '${args.eventName}'." [];
         ESend c ping;
         ESetTimeout (next_timer w) pingTimeout_cb probe_timeout]
  /\ pingTimeout w' = Some (next_timer w)
  /\ timers w' !! next_timer w = Some (deadline_timer (now w))
  /\ (forall t', t' <> t -> t' <> next_timer w ->
      timers w' !! t' = timers w !! t')
  /\ (Args.expectedPongBack args = None
      \/ Args.expectedPongBack args = Some 0 -> probe_timeout = 15000)
  /\ (forall n, Args.expectedPongBack args = Some n -> n <> 0 ->
      probe_timeout = n).
Proof.
  intros Hr Et Hcb Hws Hopen H.
  destruct (reachable_timers_tidy _ Hr _ _ Et) as [Hlt _].
  cbn [step] in H. rewrite Et in H.
  destruct (Z.leb (due tm) (now w)); [|discriminate].
  rewrite Hcb in H. unfold readyState_of in Hopen.
  destruct (sockets w !! c) as [[rs sid]|] eqn:Hc; [|discriminate].
  cbn in Hopen. subst rs.
  split; [|split; [|split; [|split; [|split]]]].
  - mexec H; reflexivity.
  - mexec H; reflexivity.
  - mexec H; unfold arm; cbn; apply lookup_insert_eq.
  - intros t' Hne1 Hne2.
    mexec H; unfold arm, disarm; cbn;
      rewrite lookup_insert_ne by congruence;
      [apply lookup_delete_ne|apply lookup_insert_ne]; congruence.
  - unfold probe_timeout, or_default. intros [-> | ->]; reflexivity.
  - unfold probe_timeout, or_default. intros n -> Hn.
    destruct (Z.eqb_spec n 0); [contradiction|reflexivity].
Qed.

(** X20.  Before the subscribe response has arrived the stored
    identifier is [undefined].  A notification that names a
    subscription is then dropped in silence; one whose [params] has no
    [subscription] field compares equal ([undefined === undefined])
    and is dispatched: its log goes to [parseLog] and the result to
    the callback, and the handler completes as the callback does,
    with the state unchanged. *)
Theorem X20_notifications_before_the_subscribe_response
    w c data v params subscription logData result :
  subscriptionId_of c w = Undefined ->
  parsed data = Some v ->
  is_handshake_response v = false ->
  is_probe_response v = false ->
  is_notification v = true ->
  get v "params" = Normal params ->
  get params "subscription" = Normal subscription ->
  get params "result" = Normal logData ->
  parseLog logData = Normal result ->
  (strict_eq subscription Undefined = false ->
   onmessage c data w = (Normal tt, w, []))
  /\ (subscription = Undefined ->
      callback_calls (snd (onmessage c data w))
      = match Args.callback args with Some _ => [result] | None => [] end
      /\ fst (onmessage c data w) = (callback_outcome result, w)).
Proof.
  intros Hid Hp Hh Hr Hn Hg1 Hg2 Hg3 Hdec.
  rewrite (onmessage_parsed _ _ _ _ Hp). split.
  - intros Hne.
    rewrite (notification_runs _ _ _ _ _ Hh Hr Hn Hg1 Hg2), Hid, Hne.
    reflexivity.
  - intros ->.
    assert (Heq : strict_eq Undefined (subscriptionId_of c w) = true)
      by now rewrite Hid.
    rewrite (decoded_runs _ _ _ _ _ _ w Hh Hr Hn Hg1 Hg2 Heq Hg3 Hdec).
    destruct (Args.callback args); split; reflexivity.
Qed.

End Properties.

(** * The properties at work *)

Ltac by_computation := vm_compute; reflexivity.

(** C4, at the input on which the code departs from it.  With a probe
    every second and a probe timeout of a second and a half, two
    probes are out at time 2100: their deadlines (handles 1 and 2) are
    due at 2500 and 3500.  The probe response that arrives then, before
    both deadlines, cancels only the deadline [pingTimeout] holds, the
    second; the first stays armed, fires at 2500 and terminates the
    connection. *)
Theorem C4_answered_probe_still_terminated :
  exists w0 out0 w1 out1 w2 out2,
    run (setup := hasty) hasty_world hasty_probes = Some (w0, out0)
    /\ now w0 = 2100
    /\ timers w0 !! 1%nat = Some (deadline_timer (setup := hasty) 1000)
    /\ timers w0 !! 2%nat = Some (deadline_timer (setup := hasty) 2000)
    /\ due (deadline_timer (setup := hasty) 1000) = 2500
    /\ due (deadline_timer (setup := hasty) 2000) = 3500
    /\ step (setup := hasty) w0 (Message 0%nat pong) = Some (w1, out1)
    /\ out1 = [ELog LDebug "Health check successful." []; EClearTimeout 2]
    /\ timers w1 !! 1%nat = Some (deadline_timer (setup := hasty) 1000)
    /\ run (setup := hasty) w1 [Elapse 400; TimerFires 1%nat] = Some (w2, out2)
    /\ out2 = [ELog LWarn "Ping timeout, terminating WebSocket connection." [];
               ETerminate 0]
    /\ readyState_of 0 w2 = CLOSING.
Proof.
  do 6 eexists.
  do 11 (split; [by_computation|]). by_computation.
Qed.

Lemma C1_witness :
  exists w' out,
    run (setup := demo) demo_world flaky_trace = Some (w', out)
    /\ reconnects out = [1000; 2000; 1000]
    /\ length (reconnects out) = 3%nat.
Proof.
  assert (E : exists w' out,
             run (setup := demo) demo_world flaky_trace = Some (w', out))
    by (eexists _, _; by_computation).
  destruct E as (w' & out & E). exists w', out. split; [exact E|].
  exact (proj1 (C1_one_reconnect_per_close_with_backoff (setup := demo))
           demo_world flaky_trace w' out eq_refl eq_refl E).
Defined.

(** The reconnect scheduled by the close fires after [stop]. *)
Lemma C2_witness :
  exists w' out,
    run (setup := demo) demo_closed [StopCalled; Elapse 1000; TimerFires 0%nat]
    = Some (w', out)
    /\ connection_attempts out = [] /\ stopped w' = true.
Proof.
  assert (E : exists w' out,
             run (setup := demo) demo_closed
               [StopCalled; Elapse 1000; TimerFires 0%nat] = Some (w', out))
    by (eexists _, _; by_computation).
  destruct E as (w' & out & E). exists w', out. split; [exact E|].
  exact (C2_no_connection_attempt_after_stop (setup := demo) _ _ _ _ E).
Defined.

Lemma demo_probe_due_reachable : reachable (setup := demo) demo_probe_due.
Proof.
  assert (E : exists out,
             run (setup := demo) demo_world [Opens 0%nat; Elapse 60000]
             = Some (demo_probe_due, out))
    by (eexists; by_computation).
  destruct E as (out & E).
  exact (reachable_run _ _ _ _ (reachable_created (setup := demo)) E).
Qed.

Lemma C3_witness :
  exists w1 out1 w2 out2,
    step (setup := demo) demo_probe_due (TimerFires 0%nat) = Some (w1, out1)
    /\ run (setup := demo) w1 silence = Some (w2, out2)
    /\ timers w2 !! next_timer demo_probe_due
       = Some (deadline_timer (setup := demo) (now demo_probe_due)).
Proof.
  assert (E1 : exists w1 out1,
             step (setup := demo) demo_probe_due (TimerFires 0%nat)
             = Some (w1, out1))
    by (eexists _, _; by_computation).
  destruct E1 as (w1 & out1 & E1).
  assert (E2 : exists w2 out2,
             run (setup := demo) w1 silence = Some (w2, out2)).
  { revert E1. vm_compute. intros E1. injection E1 as <- <-.
    eexists _, _. by_computation. }
  destruct E2 as (w2 & out2 & E2).
  exists w1, out1, w2, out2. split; [exact E1|]. split; [exact E2|].
  assert (Hws : ws demo_probe_due = Some 0%nat) by by_computation.
  assert (Hopen : readyState_of 0 demo_probe_due = OPEN) by by_computation.
  assert (Hs : stopped demo_probe_due = false) by by_computation.
  assert (Hk : keepAliveInterval demo_probe_due = Some 0%nat)
    by by_computation.
  assert (Hq : forallb (quiet 0) silence = true) by by_computation.
  exact (proj1 (proj2 (C3_unanswered_probe_terminates_and_reconnects_once
                         (setup := demo) demo_probe_due 0%nat 0%nat
                         w1 out1 silence w2 out2
                         demo_probe_due_reachable Hws Hopen Hs Hk E1 Hq E2))).
Defined.

Lemma C5_witness :
  step (setup := demo) demo_open
    (Message 0%nat (StringData (Normal bare_notification)))
  = Some (demo_open, [EUncaught TypeError]).
Proof.
  assert (Hs : sockets demo_open !! 0%nat
               = Some {| readyState := OPEN; subscriptionId := Undefined |})
    by by_computation.
  exact (proj2 (proj2 (proj2 (proj2
           (C5_notification_without_params_throws (setup := demo)
              demo_open 0%nat)))) _ Hs).
Defined.

(** C6 as stated fails on a frame that is neither a string nor a
    [Buffer]: although the caller of the demo supplied a log function,
    the frame is passed to the helper at warn level, and no log
    function receives it at error level. *)
Lemma C6_counterexample :
  Args.log (args (Setup := demo)) = Some (fn 0)
  /\ parsed OtherData = None
  /\ log_levels (snd (onmessage (setup := demo) 0%nat OtherData demo_open))
     = [LWarn]
  /\ ~ logged_by_sink_at_error (setup := demo) demo_open 0%nat OtherData.
Proof.
  split; [reflexivity|]. split; [reflexivity|]. split; [reflexivity|].
  intros [_ (f & message & rest & [H|[]])]. discriminate.
Qed.

Lemma C6_witness :
  onmessage (setup := demo) 0%nat (StringData (Throw SyntaxError)) demo_open
  = (Normal tt, demo_open,
     [ELog LError "Failed to parse JSON from WebSocket message." [Host "error"]]).
Proof.
  exact (proj1 (C6_unparsable_frame_is_logged_and_dropped (setup := demo)
                  demo_open 0%nat (StringData (Throw SyntaxError)) eq_refl)).
Defined.



(** On the subscribed socket, a notification for that subscription
    whose log has no topics: the decoder throws and so does the
    handler. *)
Lemma C8_witness :
  exists out,
    step (setup := demo) demo_subscribed
      (Message 0%nat (notification (Str "0xsub") broken_log))
    = Some (demo_subscribed, out)
    /\ uncaught out = [EUncaught TypeError]
    /\ callback_calls out = [].
Proof.
  assert (Hid : strict_eq (Str "0xsub") (subscriptionId_of 0 demo_subscribed)
                = true) by by_computation.
  assert (Hs : sockets demo_subscribed !! 0%nat
               = Some {| readyState := OPEN; subscriptionId := Str "0xsub" |})
    by by_computation.
  destruct (C8_decode_exception_leaves_the_handler (setup := demo)
              demo_subscribed 0%nat
              (notification (Str "0xsub") broken_log) _
              (Obj [("subscription", Str "0xsub"); ("result", broken_log)])
              (Str "0xsub") broken_log
              eq_refl eq_refl eq_refl eq_refl eq_refl eq_refl Hid eq_refl)
    as [Hthrow _].
  exact (proj2 (Hthrow TypeError eq_refl) _ Hs).
Defined.

(** C9 as stated fails when the first socket closes and [stop] is
    called before the reconnect fires: the reconnect timer (handle 0)
    is still scheduled when [stop] has returned, and [stop] cleared no
    timer. *)
Lemma C9_counterexample :
  reconnect_pending 0 demo_closed
  /\ (exists w,
        step (setup := demo) demo_closed StopCalled
        = Some (w, [ELog LInfo "Stopping resilient event listener." []])
        /\ reconnect_pending 0 w)
  /\ ~ stop_cancels_reconnects (setup := demo) demo_closed.
Proof.
  assert (E : exists w,
             step (setup := demo) demo_closed StopCalled
             = Some (w, [ELog LInfo "Stopping resilient event listener." []])
             /\ reconnect_pending 0 w).
  { eexists. split; [by_computation|].
    exists (reconnect_timer 0 1000). split; by_computation. }
  split; [|split; [exact E|]].
  - exists (reconnect_timer 0 1000). split; by_computation.
  - destruct E as (w & E & Hpending). intros Hclaim.
    exact (Hclaim _ _ E 0%nat Hpending).
Qed.

Lemma demo_closed_reachable : reachable (setup := demo) demo_closed.
Proof.
  assert (E : exists out,
             run (setup := demo) demo_world [Closes 0%nat]
             = Some (demo_closed, out))
    by (eexists; by_computation).
  destruct E as (out & E).
  exact (reachable_run _ _ _ _ (reachable_created (setup := demo)) E).
Qed.

Lemma C9_witness :
  exists w1 out1,
    step (setup := demo) demo_closed StopCalled = Some (w1, out1)
    /\ timers w1 !! 0%nat = Some (reconnect_timer 0 1000)
    /\ ~ In (EClearTimeout 0) out1.
Proof.
  assert (E : exists w1 out1,
             step (setup := demo) demo_closed StopCalled = Some (w1, out1))
    by (eexists _, _; by_computation).
  destruct E as (w1 & out1 & E). exists w1, out1. split; [exact E|].
  assert (Ht : timers demo_closed !! 0%nat = Some (reconnect_timer 0 1000))
    by by_computation.
  destruct (C9_stop_leaves_reconnect_timer_to_the_guard (setup := demo)
              demo_closed 0%nat _ w1 out1 demo_closed_reachable Ht eq_refl E)
    as (H1 & H2 & _).
  split; [exact H1|exact H2].
Defined.

(** A malformed frame with a log function configured: nothing reaches
    it. *)
Lemma C10_witness :
  exists w' out,
    run (setup := demo) demo_open
      [Message 0%nat (StringData (Throw SyntaxError)); Closes 0%nat]
    = Some (w', out)
    /\ sink_calls out = [].
Proof.
  assert (E : exists w' out,
             run (setup := demo) demo_open
               [Message 0%nat (StringData (Throw SyntaxError)); Closes 0%nat]
             = Some (w', out))
    by (eexists _, _; by_computation).
  destruct E as (w' & out & E). exists w', out. split; [exact E|].
  exact (proj2 (proj2 (proj2 (C10_log_sink_never_invoked (setup := demo))))
           _ _ _ _ E).
Defined.

(** * The further properties at work *)

Lemma after_reachable {setup : Setup} w evs :
  reachable w -> run w evs <> None -> reachable (after w evs).
Proof.
  intros Hw Hrun. unfold after.
  destruct (run w evs) as [[w' out]|] eqn:E; [|contradiction].
  exact (reachable_run _ _ _ _ Hw E).
Qed.

Lemma demo_probing_reachable : reachable (setup := demo) demo_probing.
Proof.
  apply after_reachable; [apply demo_probe_due_reachable|].
  vm_compute. discriminate.
Qed.

Lemma X1_witness :
  within_backoff (reconnectDelay demo_closed)
  /\ forall evs w' out,
       run (setup := demo) demo_closed evs = Some (w', out) ->
       within_backoff (reconnectDelay w')
       /\ Forall within_backoff (reconnects out).
Proof.
  exact (X1_reconnect_delay_within_bounds (setup := demo) demo_closed
           demo_closed_reachable).
Defined.

Lemma X2_witness :
  exists w' out,
    step (setup := demo) demo_open (Errors 0%nat) = Some (w', out)
    /\ reconnects out = [].
Proof.
  assert (E : exists w' out,
             step (setup := demo) demo_open (Errors 0%nat) = Some (w', out))
    by (eexists _, _; by_computation).
  destruct E as (w' & out & E). exists w', out. split; [exact E|].
  exact (proj1 (X2_only_a_close_schedules_a_reconnect (setup := demo)
                  _ _ _ _ E) eq_refl).
Defined.

Lemma X3_witness :
  exists w' out,
    run (setup := demo) demo_closed [Elapse 1000] <> None
    /\ step (setup := demo) (after (setup := demo) demo_closed [Elapse 1000])
         (TimerFires 0%nat) = Some (w', out)
    /\ ws w' = Some 1%nat
    /\ subscriptionId_of 1 w' = Undefined.
Proof.
  assert (E : exists w' out,
             step (setup := demo) (after (setup := demo) demo_closed [Elapse 1000])
               (TimerFires 0%nat) = Some (w', out)
             /\ connection_attempts out <> [])
    by (eexists _, _; split; [by_computation|vm_compute; discriminate]).
  destruct E as (w' & out & E & Hne). exists w', out.
  split; [vm_compute; discriminate|]. split; [exact E|].
  destruct (X3_only_a_reconnect_opens_a_socket (setup := demo) _ _ _ _ E Hne)
    as (_ & _ & _ & Hws & _ & Hid).
  assert (Hn : next_socket (after (setup := demo) demo_closed [Elapse 1000])
               = 1%nat) by by_computation.
  rewrite Hn in Hws, Hid. split; assumption.
Defined.

Lemma X4_witness :
  exists w1 out1 w2 out2,
    step (setup := demo) demo_open StopCalled = Some (w1, out1)
    /\ step (setup := demo) w1 StopCalled = Some (w2, out2)
    /\ w2 = w1 /\ close_requests out2 = [].
Proof.
  assert (E : exists w1 out1 w2 out2,
             step (setup := demo) demo_open StopCalled = Some (w1, out1)
             /\ step (setup := demo) w1 StopCalled = Some (w2, out2))
    by (eexists _, _, _, _; split; by_computation).
  destruct E as (w1 & out1 & w2 & out2 & E1 & E2).
  exists w1, out1, w2, out2. split; [exact E1|]. split; [exact E2|].
  destruct (X4_stop_is_idempotent (setup := demo) _ _ _ _ _ E1 E2)
    as (H1 & H2 & _).
  split; assumption.
Defined.

Lemma X5_witness :
  exists w1 out1,
    step (setup := demo) demo_open StopCalled = Some (w1, out1)
    /\ close_requests out1 = [EClose 0]
    /\ stopped w1 = true /\ ws w1 = None.
Proof.
  assert (E1 : exists w1 out1,
             step (setup := demo) demo_open StopCalled = Some (w1, out1))
    by (eexists _, _; by_computation).
  destruct E1 as (w1 & out1 & E1). exists w1, out1. split; [exact E1|].
  assert (Hws : ws demo_open = Some 0%nat) by by_computation.
  destruct (X5_stop_closes_the_connection_for_good (setup := demo)
              _ _ _ _ Hws E1) as (H1 & H2 & H3 & _).
  repeat split; assumption.
Defined.

(** The first connection is rejected; the close that follows finds
    the listener stopped. *)
Lemma X6_witness :
  exists w' out,
    run (setup := demo) demo_world [UnexpectedResponse 0%nat; Closes 0%nat]
    = Some (w', out)
    /\ stopped w' = true
    /\ connection_attempts out = [] /\ reconnects out = [].
Proof.
  assert (E : exists w' out,
             run (setup := demo) demo_world
               [UnexpectedResponse 0%nat; Closes 0%nat] = Some (w', out))
    by (eexists _, _; by_computation).
  destruct E as (w' & out & E). exists w', out. split; [exact E|].
  destruct (X6_unexpected_response_is_final (setup := demo) _ _ _ _ _ E)
    as (H1 & H2 & H3 & _).
  repeat split; assumption.
Defined.

Lemma X7_witness :
  exists w' out,
    step (setup := demo) demo_world (Opens 0%nat) = Some (w', out)
    /\ reconnectDelay w' = 1000
    /\ readyState_of 0 w' = OPEN
    /\ keep_alive_interval (setup := demo) = 60000.
Proof.
  assert (E : exists w' out,
             step (setup := demo) demo_world (Opens 0%nat) = Some (w', out))
    by (eexists _, _; by_computation).
  destruct E as (w' & out & E). exists w', out. split; [exact E|].
  destruct (X7_open_subscribes_and_arms_keep_alive (setup := demo) _ _ _ _ E)
    as (H1 & H2 & _ & H4 & _).
  split; [exact H1|]. split; [exact H2|]. apply H4. left. reflexivity.
Defined.

(** The tick finds socket 0 closing: no probe. *)
Lemma X8_witness :
  exists w' out,
    step (setup := demo) demo_terminating (TimerFires 0%nat) = Some (w', out)
    /\ readyState_of 0 demo_terminating = CLOSING
    /\ out = [].
Proof.
  assert (E : exists w' out,
             step (setup := demo) demo_terminating (TimerFires 0%nat)
             = Some (w', out))
    by (eexists _, _; by_computation).
  destruct E as (w' & out & E). exists w', out. split; [exact E|].
  split; [by_computation|].
  assert (Et : timers demo_terminating !! 0%nat
               = Some {| kind := Interval; callback := keepAlive_cb;
                         delay := 60000; due := 120000 |})
    by by_computation.
  assert (Hws : ws demo_terminating = Some 0%nat) by by_computation.
  assert (Hrs : readyState_of 0 demo_terminating = CLOSING) by by_computation.
  destruct (X8_liveness_acts_on_the_current_socket_only (setup := demo)
              _ _ _ _ _ Et E) as (H1 & _).
  apply H1; [reflexivity|].
  intros c Hc. rewrite Hws in Hc. simplify_eq. rewrite Hrs. discriminate.
Defined.

Lemma X9_witness :
  exists w' out,
    step (setup := demo) demo_probing (Closes 0%nat) = Some (w', out)
    /\ ws w' = None
    /\ timers w' !! 0%nat = None /\ timers w' !! 1%nat = None.
Proof.
  assert (E : exists w' out,
             step (setup := demo) demo_probing (Closes 0%nat) = Some (w', out))
    by (eexists _, _; by_computation).
  destruct E as (w' & out & E). exists w', out. split; [exact E|].
  assert (Hk : keepAliveInterval demo_probing = Some 0%nat) by by_computation.
  assert (Ht : pingTimeout demo_probing = Some 1%nat) by by_computation.
  destruct (X9_close_clears_the_liveness_timers (setup := demo)
              _ _ _ _ demo_probing_reachable E) as (H1 & _ & H3 & H4).
  split; [exact H1|]. split; [exact (H3 _ Hk)|exact (H4 _ Ht)].
Defined.

Lemma X10_witness :
  exists w' out,
    onmessage (setup := demo) 0%nat pong demo_probing = (Normal tt, w', out)
    /\ pingTimeout w' = None
    /\ timers w' !! 1%nat = None
    /\ timers w' !! 0%nat = timers demo_probing !! 0%nat.
Proof.
  assert (Ht : pingTimeout demo_probing = Some 1%nat) by by_computation.
  destruct (X10_probe_response_cancels_the_held_deadline_only (setup := demo)
              demo_probing 0%nat pong _ eq_refl eq_refl eq_refl)
    as (w' & out & E & H1 & _ & _ & _ & H2 & _ & H3).
  exists w', out. split; [exact E|]. split; [exact H1|].
  split; [exact (proj1 (H2 _ Ht))|].
  apply H3. rewrite Ht. discriminate.
Defined.

(** The callback of [index.ts] on a decoded Transfer: it is called
    once and throws on the amount, a [BigInt]. *)
Lemma X11_witness :
  onmessage (setup := demo) 0%nat
    (notification (Str "0xsub") transfer_log) demo_subscribed
  = (Throw TypeError, demo_subscribed,
     [ELog LInfo "Received event ${eventLog?.name}:"
        [LogDescription.args decoded_transfer];
      ECallback (fn 1) (Some decoded_transfer)])
  /\ callback_calls
       (snd (onmessage (setup := demo) 0%nat
               (notification (Str "0xsub") transfer_log) demo_subscribed))
     = [Some decoded_transfer].
Proof.
  assert (Hid : strict_eq (Str "0xsub") (subscriptionId_of 0 demo_subscribed)
                = true) by by_computation.
  destruct (X11_decoded_event_reaches_the_callback_once (setup := demo)
              demo_subscribed 0%nat
              (notification (Str "0xsub") transfer_log) _
              (Obj [("subscription", Str "0xsub"); ("result", transfer_log)])
              (Str "0xsub") transfer_log decoded_transfer
              eq_refl eq_refl eq_refl eq_refl eq_refl eq_refl Hid eq_refl
              eq_refl) as (H1 & H2 & _).
  split; [exact H1|exact H2].
Defined.

Lemma X12_witness :
  onmessage (setup := demo) 0%nat (notification (Str "0xsub") broken_log)
    demo_subscribed
  = (Throw TypeError, demo_subscribed, []).
Proof.
  assert (Hid : strict_eq (Str "0xsub") (subscriptionId_of 0 demo_subscribed)
                = true) by by_computation.
  exact (proj1 (X12_decoder_exception_escapes (setup := demo)
                  demo_subscribed 0%nat
                  (notification (Str "0xsub") broken_log) _
                  (Obj [("subscription", Str "0xsub"); ("result", broken_log)])
                  (Str "0xsub") broken_log TypeError
                  eq_refl eq_refl eq_refl eq_refl eq_refl eq_refl Hid eq_refl
                  eq_refl)).
Defined.

(** A reply to the probe whose result is 1, and a frame that is just
    [null]. *)
Lemma X13_witness :
  onmessage (setup := demo) 0%nat lax_pong demo_probing
  = (Normal tt, demo_probing, [])
  /\ onmessage (setup := demo) 0%nat (StringData (Normal Null)) demo_probing
     = (Normal tt, demo_probing, []).
Proof.
  split.
  - apply (X13_unclassified_message_is_dropped_silently (setup := demo)
             demo_probing 0%nat lax_pong _ eq_refl).
    left. repeat split.
  - apply (X13_unclassified_message_is_dropped_silently (setup := demo)
             demo_probing 0%nat (StringData (Normal Null)) _ eq_refl).
    right. reflexivity.
Defined.

Lemma X14_witness :
  exists w' out,
    step (setup := demo) demo_open (Message 0%nat (subscribed (Str "0xsub")))
    = Some (w', out)
    /\ subscriptionId_of 0 w' = Str "0xsub"
    /\ readyState_of 0 w' = readyState_of 0 demo_open.
Proof.
  assert (E : exists w' out,
             step (setup := demo) demo_open
               (Message 0%nat (subscribed (Str "0xsub"))) = Some (w', out))
    by (eexists _, _; by_computation).
  destruct E as (w' & out & E). exists w', out. split; [exact E|].
  assert (Hs : sockets demo_open !! 0%nat
               = Some {| readyState := OPEN; subscriptionId := Undefined |})
    by by_computation.
  destruct (X14_subscription_identifier_is_per_socket (setup := demo)
              demo_open 0%nat _ (subscribed (Str "0xsub")) _ w' out
              Hs eq_refl eq_refl E) as (H1 & H2 & _).
  split; assumption.
Defined.

Lemma X15_witness :
  exists w' out,
    run (setup := demo) demo_open
      [Message 0%nat (subscribed (Str "0xsub"));
       Message 0%nat (notification (Str "0xsub") transfer_log)]
    = Some (w', out)
    /\ subscriptionId_of 0 w' = Str "0xsub"
    /\ uncaught out = [EUncaught TypeError]
    /\ callback_calls out = [Some decoded_transfer].
Proof.
  assert (Hs : sockets demo_open !! 0%nat
               = Some {| readyState := OPEN; subscriptionId := Undefined |})
    by by_computation.
  exact (X15_subscribe_then_receive (setup := demo) demo_open 0%nat _
           (Str "0xsub") transfer_log decoded_transfer Hs eq_refl eq_refl).
Defined.

Lemma X16_witness :
  exists w' out,
    run (setup := demo) demo_open
      [Closes 0%nat; Elapse 1000; TimerFires 1%nat; Opens 1%nat]
    = Some (w', out)
    /\ reconnects out = [1000]
    /\ ws w' = Some 1%nat
    /\ reconnectDelay w' = 1000.
Proof.
  assert (E : exists w' out,
             run (setup := demo) demo_open
               [Closes 0%nat; Elapse 1000; TimerFires (next_timer demo_open);
                Opens (next_socket demo_open)] = Some (w', out))
    by (eexists _, _; by_computation).
  destruct E as (w' & out & E).
  assert (Hs : stopped demo_open = false) by by_computation.
  destruct (X16_reconnect_subscribes_again (setup := demo) _ _ _ _ _ Hs E)
    as (H1 & _ & _ & H4 & _ & _ & H7 & _).
  assert (Hnt : next_timer demo_open = 1%nat) by by_computation.
  assert (Hns : next_socket demo_open = 1%nat) by by_computation.
  assert (Hd : reconnectDelay demo_open = 1000) by by_computation.
  rewrite Hnt, Hns in E. rewrite Hns in H4. rewrite Hd in H1.
  exists w', out. repeat split; assumption.
Defined.

(** Three calls: a decoded event, [null], and an event whose arguments
    hold a [BigInt]. *)
Lemma X17_witness :
  get_events
    (index_callbacks demo_stringify
       [Some transfer_event; None; Some bigint_event]
       {| events := []; console := [] |})
  = omap (event_line demo_stringify)
      [Some transfer_event; None; Some bigint_event]
  /\ index_callback demo_stringify (Some bigint_event)
       {| events := []; console := [] |}
     = (Throw TypeError, {| events := []; console := [] |}).
Proof.
  destruct (X17_events_page_lists_the_decoded_events demo_stringify
              [Some transfer_event; None; Some bigint_event]
              {| events := []; console := [] |})
    as (H1 & _ & _ & _ & H5).
  split; [exact H1|]. apply H5. reflexivity.
Defined.

Lemma X18_witness :
  exists w' out,
    run (setup := demo) demo_world flaky_trace = Some (w', out)
    /\ (length (connection_attempts
                  (snd (resilientEventListener (setup := demo)) ++ out))
        <= 1 + closes flaky_trace)%nat.
Proof.
  assert (E : exists w' out,
             run (setup := demo) demo_world flaky_trace = Some (w', out))
    by (eexists _, _; by_computation).
  destruct E as (w' & out & E). exists w', out. split; [exact E|].
  exact (proj2 (X18_at_most_one_socket_per_close (setup := demo)) _ _ _ E).
Defined.

Lemma X19_witness :
  exists w' out,
    step (setup := demo) demo_probe_due (TimerFires 0%nat) = Some (w', out)
    /\ pingTimeout w' = Some (next_timer demo_probe_due)
    /\ probe_timeout (setup := demo) = 15000.
Proof.
  assert (E : exists w' out,
             step (setup := demo) demo_probe_due (TimerFires 0%nat)
             = Some (w', out))
    by (eexists _, _; by_computation).
  destruct E as (w' & out & E). exists w', out. split; [exact E|].
  assert (Et : timers demo_probe_due !! 0%nat
               = Some {| kind := Interval; callback := keepAlive_cb;
                         delay := 60000; due := 60000 |})
    by by_computation.
  assert (Hws : ws demo_probe_due = Some 0%nat) by by_computation.
  assert (Hopen : readyState_of 0 demo_probe_due = OPEN) by by_computation.
  destruct (X19_tick_arms_a_deadline_and_cancels_none (setup := demo)
              _ _ _ _ _ _ demo_probe_due_reachable Et eq_refl Hws Hopen E)
    as (_ & H2 & _ & _ & H5 & _).
  split; [exact H2|]. apply H5. left. reflexivity.
Defined.

(** On the open socket, not yet subscribed: a notification without a
    subscription reaches the callback. *)
Lemma X20_witness :
  callback_calls
    (snd (onmessage (setup := demo) 0%nat
            (anonymous_notification transfer_log) demo_open))
  = [Some decoded_transfer]
  /\ fst (onmessage (setup := demo) 0%nat
            (anonymous_notification transfer_log) demo_open)
     = (Throw TypeError, demo_open).
Proof.
  assert (Hid : subscriptionId_of 0 demo_open = Undefined) by by_computation.
  destruct (X20_notifications_before_the_subscribe_response (setup := demo)
              demo_open 0%nat (anonymous_notification transfer_log) _
              (Obj [("result", transfer_log)]) Undefined transfer_log
              (Some decoded_transfer)
              Hid eq_refl eq_refl eq_refl eq_refl eq_refl eq_refl eq_refl
              eq_refl) as [_ H].
  exact (H eq_refl).
Defined.
